(** * MivotInstance: builder, row binder, name normalizer and dictionary views

    Shallow embedding of [pyvo/mivot/viewer/mivot_instance.py].

    - A [MivotInstance] is its instance dictionary ([vars(self)]): an
      insertion-ordered mapping from attribute name to an attribute that is
      a scalar, a nested [MivotInstance] or a list of [MivotInstance].
    - [_create_class] and the dictionary views are pure and return either a
      value or the exception raised; [update] mutates the object in place,
      so it returns the object as it is left behind together with the
      exception, if any, that interrupted it.
    - [MivotUtils.cast_type_value], [unit_mapping] and
      [astropy.time.TIME_FORMATS] live outside of this module: they are the
      parameters of the section [Mivot].
    - Attribute names are names of the mapped model.  A name to which
      Python, the class or the walk of [_get_class_dict] gives a meaning of
      its own is outside of the model: the keyword [self] of the methods
      (a key [self] cannot be passed to them), the properties [dict] and
      [hk_dict] (they cannot be assigned), [update] and the private
      helpers (an attribute of that name hides the method), [_ast], and the
      names that start with two underscores ([__class__], [__dict__],
      [__iter__]).  The other names are the [ordinary] ones, for which
      the statements are meant.  A run with the MIVOT prototype feature
      switched off is outside of the model as well. *)

From Stdlib Require Import ZArith Ascii String List Bool Lia.
From Stdlib Require Import Floats.SpecFloat.
From stdpp Require Import base gmap strings.
Import ListNotations.

Local Open Scope string_scope.
Local Open Scope list_scope.

(** ** Python strings

    The operations of [str] used by the module.  A string is its sequence
    of bytes; every needle the module searches for is ASCII, so working on
    the UTF-8 bytes and working on the code points select the same
    positions. *)
Module PyStr.

(** [s.find(c)] for a one-character needle: the lowest index, or -1. *)
Fixpoint find (c : ascii) (s : string) : Z :=
  match s with
  | EmptyString => (-1)%Z
  | String a s' =>
      if Ascii.eqb a c then 0%Z
      else let r := find c s' in
           if (r =? -1)%Z then (-1)%Z else (r + 1)%Z
  end.

(** [s.rfind(c)] for a one-character needle: the highest index, or -1. *)
Fixpoint rfind (c : ascii) (s : string) : Z :=
  match s with
  | EmptyString => (-1)%Z
  | String a s' =>
      let r := rfind c s' in
      if (r =? -1)%Z then (if Ascii.eqb a c then 0%Z else (-1)%Z)
      else (r + 1)%Z
  end.

Fixpoint skip (n : nat) (s : string) : string :=
  match n, s with
  | O, _ => s
  | S _, EmptyString => EmptyString
  | S n', String _ s' => skip n' s'
  end.

(** [s[i:]]; a negative [i] counts from the end of the string. *)
Definition slice_from (i : Z) (s : string) : string :=
  if (i <? 0)%Z
  then skip (Z.to_nat (Z.max 0 (Z.of_nat (String.length s) + i))) s
  else skip (Z.to_nat i) s.

(** [s.replace(old, new)] for a non-empty [old]: the occurrences of [old]
    are taken from left to right and do not overlap.  [pending] counts the
    characters of the current occurrence that are still to be dropped. *)
Fixpoint replace_from (old new : string) (pending : nat) (s : string) : string :=
  match s with
  | EmptyString => EmptyString
  | String a s' =>
      match pending with
      | S p => replace_from old new p s'
      | O =>
          if String.prefix old s
          then String.append new (replace_from old new (String.length old - 1) s')
          else String a (replace_from old new 0 s')
      end
  end.

Definition replace (old new s : string) : string := replace_from old new 0 s.

(** [s.startswith(p)] *)
Definition startswith (p s : string) : bool := String.prefix p s.

End PyStr.

(** ** Values *)

(** Scalars: everything that is neither a list, nor a dict, nor a
    [MivotInstance].  [PObj] is a foreign object such as an astropy unit,
    known by its name only. *)
Inductive pyval : Type :=
| PNone
| PBool (b : bool)
| PInt (z : Z)
| PFloat (f : spec_float)
| PStr (s : string)
| PObj (name : string).

(** Truth value of a scalar ([if value], [not value]). *)
Definition truthy (v : pyval) : bool :=
  match v with
  | PNone => false
  | PBool b => b
  | PInt z => negb (z =? 0)%Z
  | PFloat (S754_zero _) => false
  | PFloat _ => true
  | PStr s => negb (String.eqb s "")
  | PObj _ => true
  end.

Inductive exn : Type :=
| AttributeError (name : string)
| KeyError
| TypeError
| CastError (msg : string).

Inductive result (A : Type) : Type :=
| Ok (a : A)
| Raise (e : exn).
Arguments Ok {A} a.
Arguments Raise {A} e.

#[global] Instance result_ret : MRet result := fun A a => Ok a.
#[global] Instance result_bind : MBind result := fun A B k r =>
  match r with
  | Ok a => k a
  | Raise e => Raise e
  end.

(** Plain data: the nested dictionaries handed to the constructor, and the
    dictionaries returned by [hk_dict] and [dict].  A mapping keeps its
    entries in insertion order. *)
Unset Elimination Schemes.
Inductive pydata : Type :=
| DScalar (v : pyval)
| DDict (d : list (string * pydata))
| DList (l : list pydata).

(** The object graph.  Every nested object is created by the constructor
    for one place only, so the graph is a tree. *)
Inductive MivotInstance : Type :=
| Obj (vars : list (string * attr))
with attr : Type :=
| Scalar (v : pyval)
| Instance (o : MivotInstance)
| Collection (items : list MivotInstance).
Set Elimination Schemes.

Definition vars (o : MivotInstance) : list (string * attr) :=
  match o with Obj d => d end.

(** ** Insertion-ordered dictionaries *)
Section Dict.
Context {A : Type}.

(** [d.get(k)] *)
Fixpoint dict_get (k : string) (d : list (string * A)) : option A :=
  match d with
  | [] => None
  | (k', v) :: d' => if String.eqb k' k then Some v else dict_get k d'
  end.

(** [k in d] *)
Definition dict_has (k : string) (d : list (string * A)) : bool :=
  match dict_get k d with Some _ => true | None => false end.

(** [d[k] = v]: an existing key keeps its place, a new one goes last. *)
Fixpoint dict_set (k : string) (v : A) (d : list (string * A)) : list (string * A) :=
  match d with
  | [] => [(k, v)]
  | (k', v') :: d' =>
      if String.eqb k' k then (k', v) :: d' else (k', v') :: dict_set k v d'
  end.

(** [d.pop(k, None)] *)
Fixpoint dict_pop (k : string) (d : list (string * A)) : list (string * A) :=
  match d with
  | [] => []
  | (k', v') :: d' =>
      if String.eqb k' k then d' else (k', v') :: dict_pop k d'
  end.

Definition keys (d : list (string * A)) : list string := map fst d.
End Dict.

(** [setattr(self, name, a)], [getattr(self, name)], [name in vars(self)] *)
Definition setattr (self : MivotInstance) (name : string) (a : attr) : MivotInstance :=
  Obj (dict_set name a (vars self)).

Definition getattr (self : MivotInstance) (name : string) : result attr :=
  match dict_get name (vars self) with
  | Some a => Ok a
  | None => Raise (AttributeError name)
  end.

Definition hasvar (name : string) (self : MivotInstance) : bool :=
  dict_has name (vars self).

(** ** Name normalizer *)

(** [_remove_model_name] on a [str]. *)
Definition _remove_model_name (value : string) (role_instance : bool) : string :=
  let index_underscore := PyStr.find ":" value in
  if negb (index_underscore =? -1)%Z then
    let next_index_underscore := PyStr.rfind "." value in
    if negb (next_index_underscore =? -1)%Z && negb role_instance
    then PyStr.slice_from (next_index_underscore + 1) value
    else PyStr.replace "." "_"
           (PyStr.replace ":" "_" (PyStr.slice_from (index_underscore + 1) value))
  else value.

(** [_remove_model_name] on any scalar: only a [str] is rewritten. *)
Definition _remove_model_name_value (value : pyval) : pyval :=
  match value with
  | PStr s => PStr (_remove_model_name s false)
  | _ => value
  end.

(** ** The class *)

(** list of model leaf parameters that must be hidden for the final user *)
Definition hk_parameters : list string := ["astropy_unit"; "ref"].

Section Mivot.

(** [MivotUtils.cast_type_value(value, dmtype)]; the second argument is
    whatever [getattr(self, 'dmtype')] returns. *)
Variable cast_type_value : pyval -> attr -> result pyval.
(** [unit_mapping]: unit name to astropy unit. *)
Variable unit_mapping : gmap string pyval.
(** [time.TIME_FORMATS.keys()] *)
Variable TIME_FORMATS : gset string.

(** *** Builder *)

(** [_is_leaf], on the unpacked dictionary. *)
Fixpoint _is_leaf (kwargs : list (string * pydata)) : bool :=
  match kwargs with
  | [] => true
  | (_, value) :: rest =>
      match value with
      | DDict _ => false
      | _ => _is_leaf rest
      end
  end.

(** [value.replace("year", "yr") if value else None] *)
Definition unit_name (value : pyval) : result pyval :=
  if truthy value then
    match value with
    | PStr s => Ok (PStr (PyStr.replace "year" "yr" s))
    | _ => Raise (AttributeError "replace")
    end
  else Ok PNone.

(** The [if key == 'unit'] block of [_create_class]. *)
Definition attach_unit (self : MivotInstance) (value : pyval) : result MivotInstance :=
  value ← unit_name value;
  match value with
  | PStr u =>
      match unit_mapping !! u with
      | Some au => Ok (setattr self "astropy_unit" (Scalar au))
      | None =>
          if decide (u ∈ TIME_FORMATS)
          then Ok (setattr self "astropy_unit_time" (Scalar value))
          else Ok self
      end
  | _ => Ok self
  end.

Section CreateClass.
(** The constructor, for the nested objects. *)
Variable MivotInstance_ : pydata -> result MivotInstance.

(** The COLLECTION loop: one object per item, appended in turn. *)
Fixpoint new_items (value : list pydata) : result (list MivotInstance) :=
  match value with
  | [] => Ok []
  | item :: rest =>
      o ← MivotInstance_ item;
      os ← new_items rest;
      Ok (o :: os)
  end.

(** One round of the loop of [_create_class]. *)
Definition create_entry (self : MivotInstance) (key : string) (value : pydata)
  : result MivotInstance :=
  match value with
  | DList l => (* COLLECTION *)
      items ← new_items l;
      Ok (setattr self (_remove_model_name key false) (Collection items))
  | DDict d => (* INSTANCE *)
      self ← (if negb (_is_leaf d)
              then o ← MivotInstance_ value;
                   Ok (setattr self (_remove_model_name key true) (Instance o))
              else Ok self);
      if _is_leaf d
      then o ← MivotInstance_ value;
           Ok (setattr self (_remove_model_name key false) (Instance o))
      else Ok self
  | DScalar v => (* ATTRIBUTE *)
      self ← (if String.eqb key "value"
              then dmtype ← getattr self "dmtype";
                   c ← cast_type_value v dmtype;
                   Ok (setattr self (_remove_model_name key false) (Scalar c))
              else Ok (setattr self (_remove_model_name key false)
                         (Scalar (_remove_model_name_value v))));
      if String.eqb key "unit" then attach_unit self v else Ok self
  end.

Fixpoint create_loop (self : MivotInstance) (kwargs : list (string * pydata))
  : result MivotInstance :=
  match kwargs with
  | [] => Ok self
  | (key, value) :: rest =>
      self ← create_entry self key value;
      create_loop self rest
  end.
End CreateClass.

(** The constructor, called on the unpacked [item]: unpacking wants a
    mapping. *)
Fixpoint __init__ (item : pydata) : result MivotInstance :=
  match item with
  | DDict instance_dict => create_loop __init__ (Obj []) instance_dict
  | _ => Raise TypeError
  end.

(** [self._create_class], on the unpacked dictionary. *)
Definition _create_class (self : MivotInstance) (kwargs : list (string * pydata))
  : result MivotInstance :=
  create_loop __init__ self kwargs.

(** *** Row binder *)

Definition is_None (a : attr) : bool :=
  match a with Scalar PNone => true | _ => false end.

(** [a == 'null'] *)
Definition eq_null (a : attr) : bool :=
  match a with Scalar (PStr s) => String.eqb s "null" | _ => false end.

(** [row[ref]]: a row maps column references, which are strings. *)
Definition row_getitem (row : gmap string pyval) (ref : attr) : result pyval :=
  match ref with
  | Scalar (PStr c) =>
      match row !! c with
      | Some x => Ok x
      | None => Raise KeyError
      end
  | Collection _ => Raise TypeError
  | _ => Raise KeyError
  end.

Section Update.
Variable row : gmap string pyval.
(** [update] itself, for the nested objects: [update_ ref o] is
    [o.update(row=row, ref=ref)]. *)
Variable update_ : attr -> MivotInstance -> MivotInstance * option exn.

(** [for item in value: item.update(row=row)] *)
Fixpoint update_items (items : list MivotInstance) : list MivotInstance * option exn :=
  match items with
  | [] => ([], None)
  | item :: rest =>
      match update_ (Scalar PNone) item with
      | (item', Some e) => (item' :: rest, Some e)
      | (item', None) =>
          let (rest', e) := update_items rest in (item' :: rest', e)
      end
  end.

(** One round of the loop of [update]: what the attribute [key] of
    [self] holds afterwards.  A nested object is updated by the first
    of the two tests on ['value'] or by the second: [update] never adds
    nor removes an attribute (see [update_keys]). *)
Definition update_attr (self : MivotInstance) (ref : attr) (key : string) (value : attr)
  : attr * option exn :=
  match value with
  | Collection items =>
      let (items', e) := update_items items in (Collection items', e)
  | Instance o =>
      if negb (hasvar "value" o)
      then let (o', e) := update_ (Scalar PNone) o in (Instance o', e)
      else match getattr o "ref" with
           | Ok r => let (o', e) := update_ r o in (Instance o', e)
           | Raise e => (value, Some e)
           end
  | Scalar v =>
      if String.eqb key "value" && negb (is_None ref) && negb (eq_null ref)
      then match (x ← row_getitem row ref;
                  dmtype ← getattr self "dmtype";
                  cast_type_value x dmtype) with
           | Ok c => (Scalar c, None)
           | Raise e => (value, Some e)
           end
      else (value, None)
  end.

(** The loop over [vars(self).items()]: [done] are the entries already
    visited, as they are now, [todo] those still to visit. *)
Fixpoint update_loop (ref : attr) (done todo : list (string * attr))
  : list (string * attr) * option exn :=
  match todo with
  | [] => (done, None)
  | (key, value) :: rest =>
      match update_attr (Obj (done ++ todo)) ref key value with
      | (value', Some e) => (done ++ (key, value') :: rest, Some e)
      | (value', None) => update_loop ref (done ++ [(key, value')]) rest
      end
  end.
End Update.

(** [self.update(row, ref)]: the object afterwards, and the exception
    that stopped the walk, if any. *)
Fixpoint update (row : gmap string pyval) (ref : attr) (self : MivotInstance)
  {struct self} : MivotInstance * option exn :=
  match self with
  | Obj d =>
      let (d', e) := update_loop row (update row) ref [] d in (Obj d', e)
  end.

(** *** Dictionary views *)

(** Truth value of plain data ([not data["unit"]]). *)
Definition data_truthy (x : pydata) : bool :=
  match x with
  | DScalar v => truthy v
  | DDict [] => false
  | DDict _ => true
  | DList [] => false
  | DList _ => true
  end.

(** The [if slim is True] block of [_get_class_dict], statement by
    statement. *)

(** [if "ref" in data or "value" in data: data.pop("dmtype", None)] *)
Definition drop_dmtype (data : list (string * pydata)) : list (string * pydata) :=
  if dict_has "ref" data || dict_has "value" data
  then dict_pop "dmtype" data else data.

(** [if "unit" in data and not data["unit"]: data.pop("unit", None)] *)
Definition drop_unit (data : list (string * pydata)) : list (string * pydata) :=
  match dict_get "unit" data with
  | Some u => if negb (data_truthy u) then dict_pop "unit" data else data
  | None => data
  end.

(** [for hk_parameter in hk_parameters: data.pop(hk_parameter, None)] *)
Definition drop_hk_parameters (data : list (string * pydata)) : list (string * pydata) :=
  fold_left (fun data hk_parameter => dict_pop hk_parameter data) hk_parameters data.

Definition slim_down (data : list (string * pydata)) : list (string * pydata) :=
  drop_hk_parameters (drop_unit (drop_dmtype data)).

Section GetClassDict.
(** [_get_class_dict] itself, for the values of the entries. *)
Variable get_class_dict_ : attr -> pydata.

(** The entries of [obj.__dict__] that are kept: no attribute of the
    model is callable, the name decides. *)
Fixpoint public_items (d : list (string * attr)) : list (string * pydata) :=
  match d with
  | [] => []
  | (key, value) :: rest =>
      if negb (PyStr.startswith "_" key)
      then (key, get_class_dict_ value) :: public_items rest
      else public_items rest
  end.
End GetClassDict.

(** [_get_class_dict(obj, None, slim)] on an attribute or an object.  A
    [str] and the other scalars are returned as they are; a foreign
    object has a [__dict__] without a public entry. *)
Fixpoint _get_class_dict (slim : bool) (obj : attr) {struct obj} : pydata :=
  match obj with
  | Scalar (PObj _) => DDict []
  | Scalar v => DScalar v
  | Collection items => DList (map (get_object_dict slim) items)
  | Instance o => get_object_dict slim o
  end
with get_object_dict (slim : bool) (obj : MivotInstance) {struct obj} : pydata :=
  match obj with
  | Obj d =>
      let data := public_items (_get_class_dict slim) d in
      DDict (if slim then slim_down data else data)
  end.

(** The properties [hk_dict] and [dict]. *)
Definition hk_dict (self : MivotInstance) : pydata := get_object_dict false self.
Definition dict (self : MivotInstance) : pydata := get_object_dict true self.

End Mivot.

(** * Vocabulary of the properties *)

(** ** The name normalizer, as described *)


(** The words of the description: membership, the text after the first
    separator, the segment after the last one, and the separators turned
    into underscores. *)
Fixpoint contains (c : ascii) (s : string) : bool :=
  match s with
  | EmptyString => false
  | String a s' => Ascii.eqb a c || contains c s'
  end.

Fixpoint after_first (c : ascii) (s : string) : string :=
  match s with
  | EmptyString => EmptyString
  | String a s' => if Ascii.eqb a c then s' else after_first c s'
  end.

Fixpoint after_last (c : ascii) (s : string) : string :=
  match s with
  | EmptyString => EmptyString
  | String a s' =>
      if contains c s' then after_last c s'
      else if Ascii.eqb a c then s' else s
  end.

Fixpoint map_chars (f : ascii -> ascii) (s : string) : string :=
  match s with
  | EmptyString => EmptyString
  | String a s' => String (f a) (map_chars f s')
  end.

Definition underscore (a : ascii) : ascii :=
  if Ascii.eqb a ":" || Ascii.eqb a "." then "_"%char else a.

(** The normalizer as the specification words it. *)
Definition normalize_spec (token : string) (role_instance : bool) : string :=
  if negb (contains ":" token) then token
  else
    let rest := after_first ":" token in
    if role_instance then map_chars underscore rest
    else if contains "." rest then after_last "." rest
         else rest.

(** The amended wording: without [role_instance] and without a dot, the
    colons that remain become underscores as well. *)
Definition normalize_amended (token : string) (role_instance : bool) : string :=
  if negb (contains ":" token) then token
  else
    let rest := after_first ":" token in
    if role_instance then map_chars underscore rest
    else if contains "." rest then after_last "." rest
         else map_chars underscore rest.

(** The tokens the amended wording does not speak about: a dot before
    the first colon and none after it. *)
Definition dot_before_colon_only (token : string) : bool :=
  contains ":" token && contains "." token
  && negb (contains "." (after_first ":" token)).


(** ** Trees before and after an update *)

(** [same_shape o o']: the two objects have the same attribute names in the
    same order, their collections have the same length, and a scalar
    attribute differs only if it is named [value]. *)
Inductive same_shape : MivotInstance -> MivotInstance -> Prop :=
| shape_obj d d' :
    Forall2 (fun kv kv' => fst kv' = fst kv /\ same_shape_attr (fst kv) (snd kv) (snd kv')) d d' ->
    same_shape (Obj d) (Obj d')
with same_shape_attr : string -> attr -> attr -> Prop :=
| shape_scalar key v v' :
    (key <> "value" -> v' = v) -> same_shape_attr key (Scalar v) (Scalar v')
| shape_instance key o o' :
    same_shape o o' -> same_shape_attr key (Instance o) (Instance o')
| shape_collection key items items' :
    Forall2 same_shape items items' ->
    same_shape_attr key (Collection items) (Collection items').

(** What an induction on the tree provides for the objects below an
    attribute. *)
Definition below (P : MivotInstance -> Prop) (a : attr) : Prop :=
  match a with
  | Scalar _ => True
  | Instance o => P o
  | Collection items => Forall P items
  end.

(** An ATTRIBUTE leaf holds scalars only. *)
Definition is_scalar (a : attr) : bool :=
  match a with Scalar _ => true | _ => false end.

Definition scalars_only (o : MivotInstance) : bool :=
  forallb (fun kv => is_scalar (snd kv)) (vars o).

(** [visited cast row ref done pre rest pre']: the loop of [update],
    with [done] behind it and [pre ++ rest] ahead, goes through [pre]
    without an exception and leaves [pre'] in its place. *)
Inductive visited (cast : pyval -> attr -> result pyval) (row : gmap string pyval)
  (ref : attr) : list (string * attr) -> list (string * attr) ->
                 list (string * attr) -> list (string * attr) -> Prop :=
| visited_nil done rest : visited cast row ref done [] rest []
| visited_cons done key value pre rest value' pre' :
    update_attr cast row (update cast row)
      (Obj (done ++ (key, value) :: pre ++ rest)) ref key value = (value', None) ->
    visited cast row ref (done ++ [(key, value')]) pre rest pre' ->
    visited cast row ref done ((key, value) :: pre) rest ((key, value') :: pre').

(** [ref=None], the default of [update]. *)
Definition None_ : attr := Scalar PNone.

(** ** Sample collaborators

    Closed instances of the three parameters, for the statements that are
    evaluated on a concrete input: a cast helper that knows the float 3.5
    and refuses any other text as a float, a unit table and the names of
    two time formats. *)
Definition float_3_5 : spec_float := S754_finite false 7881299347898368 (-51).

Definition sample_cast (value : pyval) (dmtype : attr) : result pyval :=
  match dmtype with
  | Scalar (PStr "float") =>
      match value with
      | PStr "3.5" => Ok (PFloat float_3_5)
      | PStr _ => Raise (CastError "could not convert string to float")
      | _ => Ok value
      end
  | _ => Ok value
  end.

Definition sample_units : gmap string pyval :=
  {[ "mas/yr" := PObj "mas / yr"; "deg" := PObj "deg" ]}.

Definition sample_times : gset string := {[ "mjd"; "jd" ]}.

(** [raises cast row o]: whatever the reference, [update] of [o] with
    [row] ends with an exception. *)
Definition raises (cast : pyval -> attr -> result pyval) (row : gmap string pyval)
  (o : MivotInstance) : Prop :=
  forall ref, snd (update cast row ref o) <> None.

(** What [update] leaves in an entry of a leaf whose [value] is rebound. *)
Definition set_value (c : pyval) (kv : string * attr) : string * attr :=
  if String.eqb (fst kv) "value" then (fst kv, Scalar c) else kv.

(** [reaches o o']: the walk of [update] started on [o] comes to [o'],
    through nested objects and items of collections. *)
Inductive reaches : MivotInstance -> MivotInstance -> Prop :=
| reaches_self o : reaches o o
| reaches_instance o key o1 o2 :
    In (key, Instance o1) (vars o) -> reaches o1 o2 -> reaches o o2
| reaches_item o key items o1 o2 :
    In (key, Collection items) (vars o) -> In o1 items -> reaches o1 o2 ->
    reaches o o2.

(** ** What the builder writes *)

(** The attribute names that one round of [_create_class] can write for
    the entry [key], [value]. *)
Definition targets (key : string) (value : pydata) : list string :=
  match value with
  | DList _ => [_remove_model_name key false]
  | DDict d => [_remove_model_name key (negb (_is_leaf d))]
  | DScalar _ =>
      _remove_model_name key false
      :: (if String.eqb key "unit" then ["astropy_unit"; "astropy_unit_time"] else [])
  end.

(** No entry of [kwargs] writes the attribute [name]. *)
Definition unwritten (name : string) (kwargs : list (string * pydata)) : Prop :=
  forall key value, In (key, value) kwargs -> ~ In name (targets key value).

(** [d.get(k)] on plain data that is a mapping. *)
Definition data_get (k : string) (x : pydata) : option pydata :=
  match x with
  | DDict d => dict_get k d
  | _ => None
  end.

(** The round trip as the specification words it, on the scalar entries of
    the dictionary: the view has the normalized key, with the normalized
    value, for every entry that is not a housekeeping one. *)
Definition reproduces (D : list (string * pydata)) (view : pydata) : Prop :=
  forall key v,
    In (key, DScalar v) D ->
    ~ In (_remove_model_name key false) hk_parameters ->
    data_get (_remove_model_name key false) view
    = Some (DScalar (_remove_model_name_value v)).

(** The attribute name under which the builder stores an entry. *)
Definition target (key : string) (value : pydata) : string :=
  match value with
  | DDict d => _remove_model_name key (negb (_is_leaf d))
  | _ => _remove_model_name key false
  end.

(** ** Vocabulary of the further properties *)

(** [occurs p s]: [p in s], the text [p] occurs somewhere in [s]. *)
Fixpoint occurs (p s : string) : bool :=
  String.prefix p s ||
  match s with
  | EmptyString => false
  | String _ s' => occurs p s'
  end.

(** A tree is [tidy] when, at every object, the attributes named [dmtype]
    and [ref] are scalars, as they are in a tree built from a mapping
    block. *)
Fixpoint tidy (o : MivotInstance) : bool :=
  match o with
  | Obj d =>
      forallb (fun kv =>
                 match snd kv with
                 | Scalar _ => true
                 | Instance o1 =>
                     negb (String.eqb (fst kv) "dmtype")
                     && negb (String.eqb (fst kv) "ref") && tidy o1
                 | Collection items =>
                     negb (String.eqb (fst kv) "dmtype")
                     && negb (String.eqb (fst kv) "ref") && forallb tidy items
                 end) d
  end.

(** The entries of a tidy object. *)
Definition tidy_entry (kv : string * attr) : bool :=
  match snd kv with
  | Scalar _ => true
  | Instance o1 =>
      negb (String.eqb (fst kv) "dmtype") && negb (String.eqb (fst kv) "ref") && tidy o1
  | Collection items =>
      negb (String.eqb (fst kv) "dmtype") && negb (String.eqb (fst kv) "ref")
      && forallb tidy items
  end.

(** [repeatable cast row o]: on a tidy [o], an update with [row] that
    ended without an exception can be done again and changes nothing. *)
Definition repeatable (cast : pyval -> attr -> result pyval) (row : gmap string pyval)
  (o : MivotInstance) : Prop :=
  tidy o = true ->
  forall ref o', update cast row ref o = (o', None) ->
                 update cast row ref o' = (o', None).

(** [valueless o]: no object of the tree, [o] included, has an attribute
    named [value]. *)
Fixpoint valueless (o : MivotInstance) : bool :=
  match o with
  | Obj d =>
      negb (dict_has "value" d)
      && forallb (fun kv =>
                    match snd kv with
                    | Scalar _ => true
                    | Instance o1 => valueless o1
                    | Collection items => forallb valueless items
                    end) d
  end.

(** ** Names that the class uses itself

    The keyword [self] of the methods, the methods and properties of the
    class, the name [_ast] that [_get_class_dict] looks for, and every name
    that starts with two underscores.  An attribute of such a name is
    outside of the model (see the head of the file): the statements are
    meant for ordinary names. *)
Definition class_names : list string :=
  ["self"; "update"; "dict"; "hk_dict"; "_create_class"; "_remove_model_name";
   "_is_leaf"; "_get_class_dict"; "_ast"].

Definition ordinary_name (name : string) : bool :=
  negb (PyStr.startswith "__" name)
  && negb (existsb (String.eqb name) class_names).

(** Every attribute of every object of the tree has an ordinary name. *)
Fixpoint ordinary (o : MivotInstance) : bool :=
  match o with
  | Obj d =>
      forallb (fun kv =>
                 ordinary_name (fst kv)
                 && match snd kv with
                    | Scalar _ => true
                    | Instance o1 => ordinary o1
                    | Collection items => forallb ordinary items
                    end) d
  end.

(** Every key of every dictionary of the data is ordinary, as it is and
    in its two normalized forms. *)
Definition ordinary_key (key : string) : bool :=
  ordinary_name key
  && ordinary_name (_remove_model_name key false)
  && ordinary_name (_remove_model_name key true).

Fixpoint ordinary_data (x : pydata) : bool :=
  match x with
  | DScalar _ => true
  | DDict d => forallb (fun kv => ordinary_key (fst kv) && ordinary_data (snd kv)) d
  | DList l => forallb ordinary_data l
  end.

(** ** The place of an object in a tree *)

(** An attribute that [update] walks through without reading the row: a
    scalar, a nested object or a collection, not named [value] and with no
    [value] below. *)
Definition quiet_entry (kv : string * attr) : bool :=
  negb (String.eqb (fst kv) "value")
  && match snd kv with
     | Scalar _ => true
     | Instance o => valueless o
     | Collection items => forallb valueless items
     end.

(** A tree with one place left open: the object put there is held as a
    nested object ([Holder]), below further nested objects ([Nested]) and
    items of collections ([Item]). *)
Inductive place : Type :=
| Holder (pre : list (string * attr)) (key : string) (post : list (string * attr))
| Nested (pre : list (string * attr)) (key : string) (inner : place)
         (post : list (string * attr))
| Item (pre : list (string * attr)) (key : string) (before : list MivotInstance)
       (inner : place) (after : list MivotInstance) (post : list (string * attr)).

Fixpoint fill (p : place) (o : MivotInstance) : MivotInstance :=
  match p with
  | Holder pre key post => Obj (pre ++ (key, Instance o) :: post)
  | Nested pre key inner post => Obj (pre ++ (key, Instance (fill inner o)) :: post)
  | Item pre key before inner after post =>
      Obj (pre ++ (key, Collection (before ++ fill inner o :: after)) :: post)
  end.

(** Around the open place, nothing is named [value] and nothing has a
    [value] below. *)
Fixpoint quiet (p : place) : bool :=
  match p with
  | Holder pre key post =>
      forallb quiet_entry pre && negb (String.eqb key "value")
      && forallb quiet_entry post
  | Nested pre key inner post =>
      forallb quiet_entry pre && negb (String.eqb key "value")
      && forallb quiet_entry post && quiet inner
  | Item pre key before inner after post =>
      forallb quiet_entry pre && negb (String.eqb key "value")
      && forallb quiet_entry post
      && forallb valueless before && forallb valueless after && quiet inner
  end.

(** The reference that [update] gives to a nested object: its own [ref]
    when it has a [value], none otherwise. *)
Definition passed (o : MivotInstance) : result attr :=
  if hasvar "value" o then getattr o "ref" else Ok None_.

(** [rebinds cast row leaf c]: an attribute leaf bound to a column of the
    row whose cell the helper casts to [c]. *)
Definition rebinds (cast : pyval -> attr -> result pyval) (row : gmap string pyval)
  (leaf : MivotInstance) (c : pyval) : Prop :=
  scalars_only leaf = true /\ List.NoDup (keys (vars leaf)) /\
  hasvar "value" leaf = true /\
  exists r x dm,
    getattr leaf "ref" = Ok r /\ is_None r = false /\ eq_null r = false /\
    row_getitem row r = Ok x /\ getattr leaf "dmtype" = Ok dm /\ cast x dm = Ok c.

(** A collection item that holds one bound leaf: the place of the leaf in
    the item, the leaf, and the cast of its cell. *)
Definition slot : Type := place * MivotInstance * pyval.

Definition slot_before (s : slot) : MivotInstance :=
  let '(p, leaf, _) := s in fill p leaf.

Definition slot_after (s : slot) : MivotInstance :=
  let '(p, leaf, c) := s in fill p (setattr leaf "value" (Scalar c)).
(** * Properties *)

#[local] Arguments String.eqb : simpl never.
#[local] Arguments Ascii.eqb : simpl never.
#[local] Arguments __init__ : simpl never.
#[local] Arguments PyStr.startswith : simpl never.
#[local] Arguments update : simpl never.
#[local] Arguments _remove_model_name : simpl never.

(** ** The name normalizer *)

Example normalize_attr : _remove_model_name "model:Class.attr" false = "attr".
Proof. reflexivity. Qed.
Example normalize_role : _remove_model_name "model:Class.attr" true = "Class_attr".
Proof. reflexivity. Qed.
Example normalize_plain : _remove_model_name "plain" false = "plain".
Proof. reflexivity. Qed.


Lemma find_spec c s :
  (contains c s = false /\ PyStr.find c s = (-1)%Z) \/
  (contains c s = true /\ (0 <= PyStr.find c s)%Z /\
   PyStr.skip (Z.to_nat (PyStr.find c s + 1)) s = after_first c s).
Proof.
  induction s as [|a s IH]; simpl.
  - left; auto.
  - destruct (Ascii.eqb a c) eqn:E; simpl.
    + right. repeat split; lia.
    + destruct IH as [[H1 H2]|[H1 [H2 H3]]].
      * left. rewrite H2. simpl. auto.
      * right. split; [assumption|].
        destruct (Z.eqb_spec (PyStr.find c s) (-1)); [lia|].
        split; [lia|].
        replace (Z.to_nat (PyStr.find c s + 1 + 1))
          with (S (Z.to_nat (PyStr.find c s + 1))) by lia.
        simpl. exact H3.
Qed.

Lemma after_last_none c s : contains c s = false -> after_last c s = s.
Proof.
  destruct s as [|a s]; simpl; [reflexivity|].
  intros H. apply orb_false_iff in H as [H1 H2]. now rewrite H1, H2.
Qed.

Lemma rfind_spec c s :
  (contains c s = false /\ PyStr.rfind c s = (-1)%Z) \/
  (contains c s = true /\ (0 <= PyStr.rfind c s)%Z /\
   PyStr.skip (Z.to_nat (PyStr.rfind c s + 1)) s = after_last c s).
Proof.
  induction s as [|a s IH]; simpl.
  - left; auto.
  - destruct IH as [[H1 H2]|[H1 [H2 H3]]].
    + rewrite H1, H2. simpl. rewrite orb_false_r.
      destruct (Ascii.eqb a c); [right|left]; repeat split; lia.
    + rewrite H1, orb_true_r. right. split; [reflexivity|].
      destruct (Z.eqb_spec (PyStr.rfind c s) (-1)); [lia|].
      split; [lia|].
      replace (Z.to_nat (PyStr.rfind c s + 1 + 1))
        with (S (Z.to_nat (PyStr.rfind c s + 1))) by lia.
      simpl. exact H3.
Qed.

(** Once a separator occurs after the first colon, the last one of the
    token is the last one of the remainder. *)
Lemma after_last_after_first c k s :
  contains c (after_first k s) = true ->
  after_last c (after_first k s) = after_last c s.
Proof.
  induction s as [|a s IH]; simpl; [discriminate|].
  destruct (Ascii.eqb a k) eqn:E.
  - intros H. now rewrite H.
  - intros H. rewrite (IH H).
    assert (contains c s = true) as ->; [|reflexivity].
    clear IH. induction s as [|b s IHs]; simpl in *; [discriminate|].
    destruct (Ascii.eqb b k); [now rewrite H, orb_true_r|].
    rewrite (IHs H). apply orb_true_r.
Qed.

Lemma contains_after_first c k s :
  contains c (after_first k s) = true -> contains c s = true.
Proof.
  induction s as [|a s IH]; simpl; [discriminate|].
  destruct (Ascii.eqb a k); intros H.
  - now rewrite H, orb_true_r.
  - now rewrite (IH H), orb_true_r.
Qed.

(** [replace] with one character for one character maps the string. *)
Lemma replace_char a b s :
  PyStr.replace (String a EmptyString) (String b EmptyString) s
  = map_chars (fun x => if Ascii.eqb x a then b else x) s.
Proof.
  unfold PyStr.replace.
  induction s as [|x s IH]; [reflexivity|].
  cbn [PyStr.replace_from map_chars String.prefix String.length Nat.sub String.append].
  destruct (ascii_dec a x) as [->|N].
  - rewrite Ascii.eqb_refl.
    destruct s; cbn [String.append]; now rewrite IH.
  - assert (Ascii.eqb x a = false) as ->
        by (apply Ascii.eqb_neq; congruence).
    now rewrite IH.
Qed.

Lemma map_chars_compose f g s :
  map_chars f (map_chars g s) = map_chars (fun x => f (g x)) s.
Proof. induction s; simpl; congruence. Qed.

Lemma map_chars_ext f g s :
  (forall x, f x = g x) -> map_chars f s = map_chars g s.
Proof. intros H. induction s; simpl; congruence. Qed.

Lemma replace_separators s :
  PyStr.replace "." "_" (PyStr.replace ":" "_" s) = map_chars underscore s.
Proof.
  rewrite !replace_char, map_chars_compose.
  apply map_chars_ext. intros x. unfold underscore.
  destruct (Ascii.eqb x ":") eqn:E1; simpl; [reflexivity|].
  reflexivity.
Qed.

Lemma slice_from_succ i s :
  (0 <= i)%Z -> PyStr.slice_from (i + 1) s = PyStr.skip (Z.to_nat (i + 1)) s.
Proof.
  intros H. unfold PyStr.slice_from.
  destruct (Z.ltb_spec (i + 1) 0); [lia|reflexivity].
Qed.


(** C3, as stated, fails: without [role_instance] and without a dot, the
    colons left after the first one are turned into underscores, where the
    description keeps the remainder as it is. *)
Lemma normalize_spec_counterexample :
  _remove_model_name "a:b:c" false = "b_c" /\
  normalize_spec "a:b:c" false = "b:c" /\
  _remove_model_name "a:b:c" false <> normalize_spec "a:b:c" false.
Proof. repeat split. discriminate. Qed.

(** C3 (amended).  A token without a colon is returned unchanged.
    Otherwise everything up to and including the first colon is stripped;
    with [role_instance] every colon and dot of the remainder becomes an
    underscore; without it, the segment after the last dot of the remainder
    is kept when the remainder has a dot, and when the token has no dot at
    all the remaining colons become underscores.  Tokens whose only dots
    stand before the first colon are left out. *)
Theorem remove_model_name_amended (value : string) (role_instance : bool) :
  role_instance = true \/ dot_before_colon_only value = false ->
  _remove_model_name value role_instance = normalize_amended value role_instance.
Proof.
  intros Hdom. unfold _remove_model_name, normalize_amended.
  destruct (find_spec ":" value) as [[Hc Hf]|[Hc [Hf Hs]]]; rewrite Hc.
  - now rewrite Hf.
  - destruct (Z.eqb_spec (PyStr.find ":" value) (-1)); [lia|]. cbn [negb].
    rewrite (slice_from_succ _ _ Hf), Hs, replace_separators.
    destruct (rfind_spec "." value) as [[Hd Hr]|[Hd [Hr Hl]]].
    + rewrite Hr. cbn [Z.eqb negb andb].
      destruct role_instance; [reflexivity|].
      destruct (contains "." (after_first ":" value)) eqn:E; [|reflexivity].
      apply contains_after_first in E. congruence.
    + destruct (Z.eqb_spec (PyStr.rfind "." value) (-1)); [lia|]. cbn [negb andb].
      destruct role_instance; [reflexivity|]. cbn [negb].
      destruct Hdom as [Hdom|Hdom]; [discriminate|].
      unfold dot_before_colon_only in Hdom. rewrite Hc, Hd in Hdom.
      cbn [andb] in Hdom. apply negb_false_iff in Hdom.
      rewrite Hdom, (slice_from_succ _ _ Hr), Hl.
      symmetry. now apply after_last_after_first.
Qed.

Lemma remove_model_name_amended_witness :
  dot_before_colon_only "model:Class.attr" = false /\
  _remove_model_name "model:Class.attr" false
  = normalize_amended "model:Class.attr" false.
Proof.
  split; [reflexivity|].
  apply (remove_model_name_amended "model:Class.attr" false).
  right. reflexivity.
Defined.

(** ** Dictionaries *)

Lemma dict_get_app {A} k (d1 d2 : list (string * A)) :
  dict_get k (d1 ++ d2)
  = match dict_get k d1 with Some v => Some v | None => dict_get k d2 end.
Proof.
  induction d1 as [|[k' v] d1 IH]; simpl; [reflexivity|].
  destruct (String.eqb k' k); [reflexivity|exact IH].
Qed.

Lemma dict_get_set_eq {A} k (v : A) d : dict_get k (dict_set k v d) = Some v.
Proof.
  induction d as [|[k' v'] d IH]; simpl.
  - now rewrite String.eqb_refl.
  - destruct (String.eqb k' k) eqn:E; simpl; now rewrite E.
Qed.

Lemma dict_get_set_ne {A} k k' (v : A) d :
  k <> k' -> dict_get k' (dict_set k v d) = dict_get k' d.
Proof.
  intros N. apply String.eqb_neq in N.
  induction d as [|[k0 v0] d IH]; simpl.
  - now rewrite N.
  - destruct (String.eqb k0 k) eqn:E; simpl.
    + apply String.eqb_eq in E. subst k0. now rewrite N.
    + now rewrite IH.
Qed.

Lemma keys_dict_set {A} k (v : A) d :
  keys (dict_set k v d) = if dict_has k d then keys d else keys d ++ [k].
Proof.
  unfold dict_has. induction d as [|[k0 v0] d IH]; simpl; [reflexivity|].
  destruct (String.eqb k0 k) eqn:E; simpl; [reflexivity|].
  rewrite IH. now destruct (dict_get k d).
Qed.

Lemma dict_get_None_keys {A} k (d : list (string * A)) :
  dict_get k d = None <-> ~ In k (keys d).
Proof.
  induction d as [|[k0 v0] d IH]; simpl; [tauto|].
  destruct (String.eqb_spec k0 k); [intuition discriminate|tauto].
Qed.

(** ** Induction on the tree *)

Lemma MivotInstance_induction (P : MivotInstance -> Prop) :
  (forall d, Forall (fun kv => below P (snd kv)) d -> P (Obj d)) ->
  forall o, P o.
Proof.
  intros H. fix IH 1. intros [d]. apply H.
  induction d as [|[k a] d IHd]; constructor; [|exact IHd].
  destruct a as [v|o|items]; simpl; [exact I|apply IH|].
  induction items; constructor; [apply IH|assumption].
Qed.

Lemma same_shape_refl o : same_shape o o.
Proof.
  induction o as [d IH] using MivotInstance_induction.
  constructor. induction IH as [|[k a] d Ha _ IHd]; constructor; [|exact IHd].
  split; [reflexivity|]. simpl in *.
  destruct a as [v|o|items]; constructor; auto.
  induction Ha; constructor; auto.
Qed.

Lemma same_shape_keys o o' : same_shape o o' -> keys (vars o') = keys (vars o).
Proof.
  intros [d d' H]. simpl. induction H as [|kv kv' d d' [E _] _ IH]; simpl; congruence.
Qed.

(** ** The loop of [update] *)
Section UpdateLoop.
Variable cast : pyval -> attr -> result pyval.
Variable row : gmap string pyval.

Lemma update_eq ref d :
  update cast row ref (Obj d)
  = let (d', e) := update_loop cast row (update cast row) ref [] d in (Obj d', e).
Proof. reflexivity. Qed.

(** A relation that every round establishes, and that holds of an entry
    left alone, relates the attributes before and after the loop. *)
Lemma update_loop_rel (R : string * attr -> string * attr -> Prop) ref :
  (forall kv, R kv kv) ->
  forall todo done,
    (forall self k a, In (k, a) todo ->
       R (k, a) (k, fst (update_attr cast row (update cast row) self ref k a))) ->
    exists todo',
      fst (update_loop cast row (update cast row) ref done todo) = done ++ todo'
      /\ Forall2 R todo todo'.
Proof.
  intros Hrefl. induction todo as [|[k a] rest IH]; intros done Hstep; simpl.
  - exists []. split; [now rewrite app_nil_r|constructor].
  - pose proof (Hstep (Obj (done ++ (k, a) :: rest)) k a (or_introl eq_refl)) as Hka.
    destruct (update_attr _ _ _ _ ref k a) as [a' [e|]]; simpl in Hka.
    + exists ((k, a') :: rest). split; [reflexivity|].
      constructor; [exact Hka|]. clear -Hrefl. induction rest; constructor; auto.
    + destruct (IH (done ++ [(k, a')])) as [todo' [E F]].
      { intros self k0 a0 Hin. apply Hstep. now right. }
      exists ((k, a') :: todo'). split; [|constructor; assumption].
      rewrite E, <- app_assoc. reflexivity.
Qed.

Lemma update_items_rel (R : MivotInstance -> MivotInstance -> Prop) items :
  (forall o, R o o) ->
  Forall (fun o => R o (fst (update cast row None_ o))) items ->
  Forall2 R items (fst (update_items (update cast row) items)).
Proof.
  intros Hrefl H. induction H as [|o items Ho _ IH]; simpl; [constructor|].
  fold None_. destruct (update cast row None_ o) as [o' [e|]]; simpl in *.
  - constructor; [exact Ho|]. clear -Hrefl. induction items; constructor; auto.
  - destruct (update_items (update cast row) items) as [items' e'].
    simpl in *. constructor; assumption.
Qed.

(** One round keeps the shape, once the objects below do. *)
Lemma update_attr_shape self ref k a :
  below (fun o => forall ref, same_shape o (fst (update cast row ref o))) a ->
  same_shape_attr k a (fst (update_attr cast row (update cast row) self ref k a)).
Proof.
  destruct a as [v|o|items]; simpl; intros IH.
  - destruct (String.eqb_spec k "value") as [->|N]; simpl.
    + destruct (negb (is_None ref) && negb (eq_null ref)).
      * destruct (_ ≫= _); constructor; congruence.
      * constructor; congruence.
    + constructor; reflexivity.
  - destruct (negb (hasvar "value" o)).
    + specialize (IH (Scalar PNone)).
      destruct (update cast row (Scalar PNone) o); simpl in *. now constructor.
    + destruct (getattr o "ref") as [r|e].
      * specialize (IH r). destruct (update cast row r o); simpl in *. now constructor.
      * constructor. apply same_shape_refl.
  - pose proof (update_items_rel same_shape items same_shape_refl) as H.
    destruct (update_items (update cast row) items) as [items' e]; simpl in *.
    constructor. apply H. revert IH. apply List.Forall_impl. intros o Ho. apply Ho.
Qed.

Lemma update_shape self : forall ref, same_shape self (fst (update cast row ref self)).
Proof.
  induction self as [d IH] using MivotInstance_induction. intros ref.
  rewrite update_eq.
  destruct (update_loop_rel
              (fun kv kv' => fst kv' = fst kv /\ same_shape_attr (fst kv) (snd kv) (snd kv'))
              ref) with (todo := d) (done := @nil (string * attr)) as [d' [E F]].
  - intros [k a]. split; [reflexivity|]. simpl.
    destruct a; constructor; auto using same_shape_refl.
    clear. induction items; constructor; auto using same_shape_refl.
  - intros self k a Hin. split; [reflexivity|]. simpl.
    apply update_attr_shape.
    rewrite List.Forall_forall in IH. apply (IH (k, a) Hin).
  - destruct (update_loop _ _ _ ref [] d) as [d1 e]. simpl in *. subst d1.
    constructor. exact F.
Qed.

(** *** Runs without an exception, and the round that raises *)

Lemma update_loop_visited ref pre done rest pre' :
  visited cast row ref done pre rest pre' ->
  update_loop cast row (update cast row) ref done (pre ++ rest)
  = update_loop cast row (update cast row) ref (done ++ pre') rest.
Proof.
  induction 1 as [done rest|done k a pre rest a' pre' Hstep _ IH]; simpl.
  - now rewrite app_nil_r.
  - rewrite Hstep, IH, <- app_assoc. reflexivity.
Qed.

Lemma update_visited_ok ref d d' :
  visited cast row ref [] d [] d' ->
  update cast row ref (Obj d) = (Obj d', None).
Proof.
  intros H. rewrite update_eq.
  pose proof (update_loop_visited _ _ _ _ _ H) as E.
  rewrite app_nil_r in E. rewrite E. reflexivity.
Qed.

Lemma update_visited_raise ref pre k a post pre' a' e :
  visited cast row ref [] pre ((k, a) :: post) pre' ->
  update_attr cast row (update cast row) (Obj (pre' ++ (k, a) :: post)) ref k a
  = (a', Some e) ->
  update cast row ref (Obj (pre ++ (k, a) :: post))
  = (Obj (pre' ++ (k, a') :: post), Some e).
Proof.
  intros H Hstep. rewrite update_eq, (update_loop_visited _ _ _ _ _ H).
  simpl. rewrite Hstep. reflexivity.
Qed.

Lemma update_loop_ok ref todo : forall done d',
  update_loop cast row (update cast row) ref done todo = (d', None) ->
  exists todo', d' = done ++ todo' /\ visited cast row ref done todo [] todo'.
Proof.
  induction todo as [|[k a] rest IH]; intros done d'; simpl.
  - intros [= <-]. exists []. split; [now rewrite app_nil_r|constructor].
  - destruct (update_attr _ _ _ _ ref k a) as [a' [e|]] eqn:Hstep; [discriminate|].
    intros Hloop. destruct (IH _ _ Hloop) as [todo' [-> Hv]].
    exists ((k, a') :: todo'). split; [now rewrite <- app_assoc|].
    econstructor; [|exact Hv]. rewrite app_nil_r. exact Hstep.
Qed.

Lemma update_ok_visited ref d o' :
  update cast row ref (Obj d) = (o', None) ->
  exists d', o' = Obj d' /\ visited cast row ref [] d [] d'.
Proof.
  rewrite update_eq.
  destruct (update_loop _ _ _ ref [] d) as [d1 e] eqn:E. intros [= <- ->].
  destruct (update_loop_ok _ _ _ _ E) as [d' [-> Hv]]. now exists d'.
Qed.

(** In a run without an exception every round ended without one. *)
Lemma visited_rounds ref done pre rest pre' :
  visited cast row ref done pre rest pre' ->
  Forall2 (fun kv kv' : string * attr =>
             fst kv' = fst kv /\
             exists self, update_attr cast row (update cast row) self ref (fst kv) (snd kv)
                          = (snd kv', None)) pre pre'.
Proof.
  induction 1; constructor; [|assumption]. split; [reflexivity|]. eauto.
Qed.

Lemma update_ok_rounds ref self self' k a :
  update cast row ref self = (self', None) -> In (k, a) (vars self) ->
  exists self0 a', update_attr cast row (update cast row) self0 ref k a = (a', None).
Proof.
  destruct self as [d]. intros H Hin.
  destruct (update_ok_visited _ _ _ H) as [d' [-> Hv]].
  apply visited_rounds in Hv. simpl in Hin. clear H.
  induction Hv as [|kv kv' d d' [_ [self0 Hs]] _ IH]; [contradiction|].
  destruct Hin as [->|Hin]; [|auto]. simpl in Hs. eauto.
Qed.

Lemma dict_get_rounds (R : string -> attr -> attr -> Prop) d d' k a :
  Forall2 (fun kv kv' : string * attr =>
             fst kv' = fst kv /\ R (fst kv) (snd kv) (snd kv')) d d' ->
  dict_get k d = Some a ->
  exists a', dict_get k d' = Some a' /\ R k a a'.
Proof.
  induction 1 as [|[k0 a0] [k1 a1] d d' [E HR] _ IH]; simpl; [discriminate|].
  simpl in E, HR. subst k1.
  destruct (String.eqb_spec k0 k) as [->|N]; [|exact IH].
  intros [= ->]. eauto.
Qed.

(** *** Rounds on scalars *)

Lemma update_attr_unbound self ref k v :
  String.eqb k "value" && negb (is_None ref) && negb (eq_null ref) = false ->
  update_attr cast row (update cast row) self ref k (Scalar v) = (Scalar v, None).
Proof. intros H. simpl. now rewrite H. Qed.

Lemma update_attr_value self ref v x dm :
  is_None ref = false -> eq_null ref = false ->
  row_getitem row ref = Ok x -> getattr self "dmtype" = Ok dm ->
  update_attr cast row (update cast row) self ref "value" (Scalar v)
  = match cast x dm with
    | Ok c => (Scalar c, None)
    | Raise e => (Scalar v, Some e)
    end.
Proof. intros H1 H2 H3 H4. simpl. rewrite H1, H2, H3, H4. reflexivity. Qed.

Lemma dict_get_set_value c name done todo :
  name <> "value" ->
  dict_get name (map (set_value c) done ++ todo) = dict_get name (done ++ todo).
Proof.
  intros N. induction done as [|[k a] done IH]; simpl; [reflexivity|].
  unfold set_value at 1. simpl.
  destruct (String.eqb_spec k "value") as [->|Nk]; simpl; rewrite IH.
  - apply String.eqb_neq in N. rewrite String.eqb_sym in N. now rewrite N.
  - reflexivity.
Qed.

(** Scalars that are not a bound [value] are walked through and left as
    they are. *)
Lemma visited_untouched ref todo : forall done rest,
  forallb (fun kv => is_scalar (snd kv) &&
                     negb (String.eqb (fst kv) "value" && negb (is_None ref)
                           && negb (eq_null ref))) todo = true ->
  visited cast row ref done todo rest todo.
Proof.
  induction todo as [|[k a] todo IH]; intros done rest Hs; [constructor|].
  simpl in Hs. apply andb_true_iff in Hs as [Ha Hs].
  apply andb_true_iff in Ha as [Ha Hk].
  destruct a as [v| |]; try discriminate.
  constructor; [|now apply IH].
  apply update_attr_unbound. now apply negb_true_iff in Hk.
Qed.

Lemma visited_leaf_unbound ref todo done rest :
  forallb (fun kv => is_scalar (snd kv)) todo = true ->
  is_None ref || eq_null ref = true ->
  visited cast row ref done todo rest todo.
Proof.
  intros Hs Hr. apply visited_untouched.
  rewrite forallb_forall in *. intros kv Hin. rewrite (Hs kv Hin). simpl.
  destruct (is_None ref), (eq_null ref); try discriminate;
    now rewrite ?andb_false_r.
Qed.

(** A bound leaf has its [value] replaced by the cast of the cell. *)
Lemma visited_leaf_bound ref x dm c todo : forall done,
  forallb (fun kv => is_scalar (snd kv)) todo = true ->
  is_None ref = false -> eq_null ref = false ->
  row_getitem row ref = Ok x -> cast x dm = Ok c ->
  dict_get "dmtype" (done ++ todo) = Some dm ->
  visited cast row ref (map (set_value c) done) todo [] (map (set_value c) todo).
Proof.
  induction todo as [|[k a] todo IH]; intros done Hs H1 H2 H3 H4 Hd; [constructor|].
  simpl in Hs. apply andb_true_iff in Hs as [Ha Hs].
  destruct a as [v| |]; try discriminate.
  assert (getattr (Obj (map (set_value c) done ++ (k, Scalar v) :: todo ++ []))
            "dmtype" = Ok dm) as Hg.
  { unfold getattr. simpl. rewrite app_nil_r, dict_get_set_value, Hd by discriminate.
    reflexivity. }
  assert (map (set_value c) done ++ [set_value c (k, Scalar v)]
          = map (set_value c) (done ++ [(k, Scalar v)])) as Hm
      by now rewrite map_app.
  simpl map. unfold set_value at 2. simpl fst.
  destruct (String.eqb_spec k "value") as [->|N].
  - constructor.
    + rewrite (update_attr_value _ _ _ _ _ H1 H2 H3 Hg), H4. reflexivity.
    + replace [("value", Scalar c)] with [set_value c ("value", Scalar v)] by reflexivity.
      rewrite Hm. apply IH; auto. now rewrite <- app_assoc.
  - constructor.
    + apply update_attr_unbound. apply String.eqb_neq in N. now rewrite N.
    + replace [(k, Scalar v)] with [set_value c (k, Scalar v)].
      * rewrite Hm. apply IH; auto. now rewrite <- app_assoc.
      * unfold set_value. simpl. apply String.eqb_neq in N. now rewrite N.
Qed.

Lemma update_leaf_unbound ref leaf :
  scalars_only leaf = true -> is_None ref || eq_null ref = true ->
  update cast row ref leaf = (leaf, None).
Proof.
  destruct leaf as [d]. intros Hs Hr. apply update_visited_ok.
  now apply visited_leaf_unbound.
Qed.

Lemma update_leaf_bound ref leaf x dm c :
  scalars_only leaf = true ->
  is_None ref = false -> eq_null ref = false ->
  row_getitem row ref = Ok x -> getattr leaf "dmtype" = Ok dm -> cast x dm = Ok c ->
  update cast row ref leaf = (Obj (map (set_value c) (vars leaf)), None).
Proof.
  destruct leaf as [d]. intros Hs H1 H2 H3 H4 H5. apply update_visited_ok.
  apply (visited_leaf_bound ref x dm c d []); auto.
  unfold getattr in H4. simpl in *. now destruct (dict_get "dmtype" d) as [dm'|]; inversion H4.
Qed.

(** With distinct names, rebinding [value] is [setattr]. *)
Lemma map_set_value c d :
  List.NoDup (keys d) -> dict_has "value" d = true ->
  map (set_value c) d = dict_set "value" (Scalar c) d.
Proof.
  unfold dict_has, keys. induction d as [|[k a] d IH]; simpl; [discriminate|].
  intros Hnd Hh. inversion Hnd as [|? ? Hnotin Hnd']; subst.
  unfold set_value at 1. simpl.
  destruct (String.eqb_spec k "value") as [->|N].
  - f_equal. clear -Hnotin. induction d as [|[k a] d IH]; [reflexivity|].
    simpl in *. unfold set_value at 1. simpl.
    destruct (String.eqb_spec k "value") as [->|N]; [tauto|].
    f_equal. apply IH. tauto.
  - f_equal. now apply IH.
Qed.

(** *** Rounds on nested objects and collections *)

Lemma update_attr_instance self ref k o :
  update_attr cast row (update cast row) self ref k (Instance o)
  = if hasvar "value" o
    then match getattr o "ref" with
         | Ok r => let (o', e) := update cast row r o in (Instance o', e)
         | Raise e => (Instance o, Some e)
         end
    else let (o', e) := update cast row None_ o in (Instance o', e).
Proof. simpl. now destruct (hasvar "value" o). Qed.

Lemma update_items_ok items items' :
  update_items (update cast row) items = (items', None) ->
  items' = map (fun o => fst (update cast row None_ o)) items /\
  Forall (fun o => snd (update cast row None_ o) = None) items.
Proof.
  revert items'. induction items as [|o items IH]; simpl; intros items'.
  - intros [= <-]. split; constructor.
  - fold None_. destruct (update cast row None_ o) as [o' [e|]] eqn:Eo; [discriminate|].
    destruct (update_items (update cast row) items) as [rest' e'].
    intros [= <- ->]. destruct (IH _ eq_refl) as [-> HF].
    split; [reflexivity|]. constructor; [now rewrite Eo|exact HF].
Qed.

Lemma update_attr_collection self ref k items a' :
  update_attr cast row (update cast row) self ref k (Collection items) = (a', None) ->
  a' = Collection (map (fun o => fst (update cast row None_ o)) items) /\
  Forall (fun o => snd (update cast row None_ o) = None) items.
Proof.
  simpl. destruct (update_items (update cast row) items) as [items' e] eqn:E.
  intros [= <- ->]. destruct (update_items_ok _ _ E) as [-> HF]. auto.
Qed.

(** *** A leaf whose cast fails *)

Lemma dict_split {A} k (d : list (string * A)) :
  dict_has k d = true ->
  exists pre v post,
    d = pre ++ (k, v) :: post /\
    forallb (fun kv => negb (String.eqb (fst kv) k)) pre = true.
Proof.
  unfold dict_has. induction d as [|[k0 v0] d IH]; simpl; [discriminate|].
  destruct (String.eqb_spec k0 k) as [->|N].
  - intros _. exists [], v0, d. auto.
  - intros H. destruct (IH H) as (pre & v & post & -> & Hpre).
    exists ((k0, v0) :: pre), v, post. split; [reflexivity|].
    simpl. apply String.eqb_neq in N. now rewrite N.
Qed.

Lemma update_leaf_raise ref leaf x dm e :
  scalars_only leaf = true -> hasvar "value" leaf = true ->
  is_None ref = false -> eq_null ref = false ->
  row_getitem row ref = Ok x -> getattr leaf "dmtype" = Ok dm -> cast x dm = Raise e ->
  update cast row ref leaf = (leaf, Some e).
Proof.
  destruct leaf as [d]. unfold scalars_only, hasvar. simpl.
  intros Hs Hv H1 H2 H3 H4 H5.
  destruct (dict_split _ _ Hv) as (pre & v & post & -> & Hpre).
  rewrite forallb_app in Hs. apply andb_true_iff in Hs as [Hs1 Hs2].
  simpl in Hs2. destruct v as [v| |]; try discriminate.
  apply update_visited_raise with (pre' := pre).
  - apply visited_untouched. rewrite forallb_forall in *.
    intros kv Hin. rewrite (Hs1 kv Hin). simpl.
    specialize (Hpre kv Hin). apply negb_true_iff in Hpre. now rewrite Hpre.
  - rewrite (update_attr_value _ _ _ _ _ H1 H2 H3 H4), H5. reflexivity.
Qed.

(** *** An exception below stops the walk above *)

#[local] Abbreviation raises := (raises cast row).

Lemma raises_round self k a :
  In (k, a) (vars self) ->
  (forall self0 ref a', update_attr cast row (update cast row) self0 ref k a <> (a', None)) ->
  raises self.
Proof.
  intros Hin Hstep ref Hnone.
  destruct (update cast row ref self) as [self' e] eqn:E. simpl in Hnone. subst e.
  destruct (update_ok_rounds _ _ _ _ _ E Hin) as (self0 & a' & Hs).
  exact (Hstep _ _ _ Hs).
Qed.

Lemma raises_instance o k o1 :
  In (k, Instance o1) (vars o) -> raises o1 -> raises o.
Proof.
  intros Hin Hr. apply (raises_round _ _ _ Hin). intros self0 ref a'.
  rewrite update_attr_instance.
  destruct (hasvar "value" o1).
  - destruct (getattr o1 "ref") as [r|e]; [|discriminate].
    specialize (Hr r). destruct (update cast row r o1) as [o' [e|]]; [discriminate|].
    now elim Hr.
  - specialize (Hr None_). destruct (update cast row None_ o1) as [o' [e|]]; [discriminate|].
    now elim Hr.
Qed.

Lemma raises_item o k items o1 :
  In (k, Collection items) (vars o) -> In o1 items -> raises o1 -> raises o.
Proof.
  intros Hin Hitem Hr. apply (raises_round _ _ _ Hin). intros self0 ref a' Hs.
  apply update_attr_collection in Hs as [_ HF].
  rewrite List.Forall_forall in HF. exact (Hr None_ (HF _ Hitem)).
Qed.

Lemma raises_reaches root o : reaches root o -> raises o -> raises root.
Proof.
  induction 1; intros Hr; eauto using raises_instance, raises_item.
Qed.

(** [update] neither adds nor removes an attribute: the two tests on
    ['value'] in the walk of a nested object see the same answer. *)
Lemma update_keys ref o : keys (vars (fst (update cast row ref o))) = keys (vars o).
Proof. apply same_shape_keys, update_shape. Qed.

Lemma dict_has_keys {A} k (d d' : list (string * A)) :
  keys d' = keys d -> dict_has k d' = dict_has k d.
Proof.
  unfold dict_has, keys. revert d'.
  induction d as [|[k0 v0] d IH]; intros [|[k1 v1] d']; simpl; try discriminate.
  - reflexivity.
  - intros [= -> H]. destruct (String.eqb k0 k); [reflexivity|]. now apply IH.
Qed.

Lemma update_hasvar ref name o :
  hasvar name (fst (update cast row ref o)) = hasvar name o.
Proof. unfold hasvar. apply dict_has_keys, update_keys. Qed.

End UpdateLoop.

(** ** The row binder *)

(** C6 (amended).  [update] never alters the shape of the tree: whatever
    the row and the reference, and whether or not an exception interrupts
    it, every object keeps its attribute names in their order, every
    collection keeps its length, and a scalar attribute can only differ if
    it is named [value], in an attribute leaf or in any other object that
    holds one: [dmtype], [ref], [unit] and the other scalars are
    untouched. *)
Theorem update_frame (cast : pyval -> attr -> result pyval)
    (row : gmap string pyval) (ref : attr) (self : MivotInstance) :
  let self' := fst (update cast row ref self) in
  same_shape self self' /\
  keys (vars self') = keys (vars self) /\
  (forall name v,
      name <> "value" -> dict_get name (vars self) = Some (Scalar v) ->
      dict_get name (vars self') = Some (Scalar v)) /\
  (forall name items,
      dict_get name (vars self) = Some (Collection items) ->
      exists items', dict_get name (vars self') = Some (Collection items') /\
                     length items' = length items).
Proof.
  intros self'. pose proof (update_shape cast row self ref) as Hshape.
  fold self' in Hshape. split; [exact Hshape|].
  split; [now apply same_shape_keys|].
  destruct Hshape as [d d' HF]. simpl. split.
  - intros name v N Hget.
    destruct (dict_get_rounds same_shape_attr _ _ _ _ HF Hget) as (a' & Hget' & HR).
    inversion HR; subst. rewrite Hget'. repeat f_equal. auto.
  - intros name items Hget.
    destruct (dict_get_rounds same_shape_attr _ _ _ _ HF Hget) as (a' & Hget' & HR).
    inversion HR; subst. eexists. split; [exact Hget'|].
    symmetry. eapply List.Forall2_length; eassumption.
Qed.



(** ** The builder *)
Section Builder.
Variable cast : pyval -> attr -> result pyval.
Variable unit_mapping : gmap string pyval.
Variable TIME_FORMATS : gset string.

#[local] Abbreviation new := (__init__ cast unit_mapping TIME_FORMATS).
#[local] Abbreviation entry := (create_entry cast unit_mapping TIME_FORMATS new).
#[local] Abbreviation loop := (create_loop cast unit_mapping TIME_FORMATS new).

Lemma init_eq d : new (DDict d) = loop (Obj []) d.
Proof. reflexivity. Qed.

Lemma create_loop_app self a b :
  loop self (a ++ b) = (self' ← loop self a; loop self' b).
Proof.
  revert self. induction a as [|[k v] a IH]; intros self; simpl; [reflexivity|].
  destruct (entry self k v) as [self1|e]; simpl; [apply IH|reflexivity].
Qed.

Lemma create_loop_cons self k v rest :
  loop self ((k, v) :: rest) = (self' ← entry self k v; loop self' rest).
Proof. reflexivity. Qed.

(** A build that succeeds went through each of its rounds. *)
Lemma create_loop_split self pre k v post o :
  loop self (pre ++ (k, v) :: post) = Ok o ->
  exists s1 s2, loop self pre = Ok s1 /\ entry s1 k v = Ok s2 /\ loop s2 post = Ok o.
Proof.
  rewrite create_loop_app. destruct (loop self pre) as [s1|e]; [|discriminate].
  simpl. destruct (entry s1 k v) as [s2|e] eqn:E; [|discriminate].
  simpl. intros H. exists s1, s2. rewrite E. auto.
Qed.

Lemma vars_setattr self name a :
  vars (setattr self name a) = dict_set name a (vars self).
Proof. reflexivity. Qed.

Lemma get_setattr_ne self name a name' :
  name <> name' -> dict_get name' (vars (setattr self name a)) = dict_get name' (vars self).
Proof. intros N. now apply dict_get_set_ne. Qed.

Lemma get_setattr_eq self name a :
  dict_get name (vars (setattr self name a)) = Some a.
Proof. apply dict_get_set_eq. Qed.

Lemma attach_unit_other self v self' name :
  attach_unit unit_mapping TIME_FORMATS self v = Ok self' ->
  name <> "astropy_unit" -> name <> "astropy_unit_time" ->
  dict_get name (vars self') = dict_get name (vars self).
Proof.
  unfold attach_unit. destruct (unit_name v) as [[| | | |u|]|e]; simpl;
    try (intros [= <-]; reflexivity); try discriminate.
  destruct (unit_mapping !! u).
  - intros [= <-] N1 N2. now apply get_setattr_ne.
  - destruct (decide (u ∈ TIME_FORMATS)); intros [= <-] N1 N2;
      [now apply get_setattr_ne|reflexivity].
Qed.

(** A round leaves alone the attributes that are not among its targets. *)
Lemma create_entry_other self key value self' name :
  entry self key value = Ok self' -> ~ In name (targets key value) ->
  dict_get name (vars self') = dict_get name (vars self).
Proof.
  destruct value as [v|d|l]; simpl.
  - set (self1 := if String.eqb key "value" then _ else _).
    intros H N.
    assert (forall s, self1 = Ok s -> dict_get name (vars s) = dict_get name (vars self)) as H1.
    { subst self1. intros s. destruct (String.eqb key "value").
      - destruct (getattr self "dmtype") as [dm|e]; [|discriminate]. simpl.
        destruct (cast v dm) as [c|e]; [|discriminate]. simpl.
        intros [= <-]. apply get_setattr_ne. tauto.
      - intros [= <-]. apply get_setattr_ne. tauto. }
    destruct self1 as [s|e]; [|discriminate]. simpl in H.
    destruct (String.eqb key "unit").
    + cbn [In] in N.
      rewrite (attach_unit_other _ _ _ _ H) by intuition congruence. now apply H1.
    + cbn iota in H. injection H as <-. now apply H1.
  - destruct (_is_leaf d); simpl.
    + destruct (new (DDict d)); [|discriminate]. simpl.
      intros [= <-] N. apply get_setattr_ne. tauto.
    + destruct (new (DDict d)); [|discriminate]. simpl.
      intros [= <-] N. apply get_setattr_ne. tauto.
  - destruct (new_items new l); [|discriminate]. simpl.
    intros [= <-] N. apply get_setattr_ne. tauto.
Qed.

Lemma create_loop_other name kwargs : forall self self',
  loop self kwargs = Ok self' -> unwritten name kwargs ->
  dict_get name (vars self') = dict_get name (vars self).
Proof.
  induction kwargs as [|[k v] rest IH]; intros self self'; simpl.
  - now intros [= <-].
  - destruct (entry self k v) as [s1|e] eqn:E; [|discriminate]. simpl.
    intros H U. rewrite (IH _ _ H).
    + apply (create_entry_other _ _ _ _ _ E). apply U. now left.
    + intros k' v' Hin. apply U. now right.
Qed.

(** The rounds on a scalar, one equation each. *)
Lemma create_entry_unit self v :
  entry self "unit" (DScalar v)
  = attach_unit unit_mapping TIME_FORMATS
      (setattr self "unit" (Scalar (_remove_model_name_value v))) v.
Proof. reflexivity. Qed.

Lemma create_entry_value self v :
  entry self "value" (DScalar v)
  = (dmtype ← getattr self "dmtype";
     c ← cast v dmtype;
     Ok (setattr self "value" (Scalar c))).
Proof.
  unfold create_entry.
  change (String.eqb "value" "value") with true.
  change (String.eqb "value" "unit") with false.
  change (_remove_model_name "value" false) with "value".
  cbn iota.
  destruct (getattr self "dmtype") as [dm|e]; [|reflexivity]. simpl.
  destruct (cast v dm); reflexivity.
Qed.

Lemma new_items_spec l items :
  new_items new l = Ok items -> Forall2 (fun item o => new item = Ok o) l items.
Proof.
  revert items. induction l as [|item l IH]; simpl; intros items.
  - intros [= <-]. constructor.
  - destruct (new item) as [o|e] eqn:E; [|discriminate]. simpl.
    destruct (new_items new l) as [os|e]; [|discriminate]. simpl.
    intros [= <-]. constructor; auto.
Qed.

Lemma new_items_complete l items :
  Forall2 (fun item o => new item = Ok o) l items -> new_items new l = Ok items.
Proof.
  induction 1 as [|item o l items E _ IH]; simpl; [reflexivity|].
  now rewrite E, IH.
Qed.

Lemma create_entry_collection self key l :
  entry self key (DList l)
  = (items ← new_items new l;
     Ok (setattr self (_remove_model_name key false) (Collection items))).
Proof. reflexivity. Qed.

Lemma create_entry_instance self key d :
  entry self key (DDict d)
  = (o ← new (DDict d);
     Ok (setattr self (_remove_model_name key (negb (_is_leaf d))) (Instance o))).
Proof.
  simpl. destruct (_is_leaf d); simpl; destruct (new (DDict d)); reflexivity.
Qed.

(** The names of an object stay distinct. *)
Lemma dict_set_NoDup {A} k (v : A) d :
  List.NoDup (keys d) -> List.NoDup (keys (dict_set k v d)).
Proof.
  intros H. rewrite keys_dict_set. unfold dict_has.
  destruct (dict_get k d) eqn:E; [exact H|].
  apply dict_get_None_keys in E.
  apply List.NoDup_app; [exact H|repeat constructor; simpl; tauto|].
  intros x Hx [<-|[]]. contradiction.
Qed.

Lemma attach_unit_NoDup self v self' :
  attach_unit unit_mapping TIME_FORMATS self v = Ok self' ->
  List.NoDup (keys (vars self)) -> List.NoDup (keys (vars self')).
Proof.
  unfold attach_unit. destruct (unit_name v) as [[| | | |u|]|e]; simpl;
    try (intros [= <-]; auto); try discriminate.
  destruct (unit_mapping !! u).
  - intros [= <-]. apply dict_set_NoDup.
  - destruct (decide (u ∈ TIME_FORMATS)); intros [= <-]; [apply dict_set_NoDup|auto].
Qed.

Lemma create_entry_NoDup self key value self' :
  entry self key value = Ok self' ->
  List.NoDup (keys (vars self)) -> List.NoDup (keys (vars self')).
Proof.
  destruct value as [v|d|l].
  - cbn [create_entry].
    set (self1 := if String.eqb key "value" then _ else _).
    intros H Hnd.
    assert (forall s, self1 = Ok s -> List.NoDup (keys (vars s))) as H1.
    { subst self1. intros s. destruct (String.eqb key "value").
      - destruct (getattr self "dmtype") as [dm|e]; [|discriminate]. simpl.
        destruct (cast v dm) as [c|e]; [|discriminate]. simpl.
        intros [= <-]. now apply dict_set_NoDup.
      - intros [= <-]. now apply dict_set_NoDup. }
    destruct self1 as [s|e]; [|discriminate]. cbn [mbind result_bind] in H.
    destruct (String.eqb key "unit").
    + apply (attach_unit_NoDup _ _ _ H). now apply H1.
    + injection H as <-. now apply H1.
  - rewrite create_entry_instance.
    destruct (new (DDict d)); [|discriminate]. simpl.
    intros [= <-]. apply dict_set_NoDup.
  - rewrite create_entry_collection.
    destruct (new_items new l); [|discriminate]. simpl.
    intros [= <-]. apply dict_set_NoDup.
Qed.

(** The attribute names of a built object are distinct. *)
Lemma init_NoDup item o : new item = Ok o -> List.NoDup (keys (vars o)).
Proof.
  destruct item as [v|d|l]; try discriminate. rewrite init_eq.
  assert (List.NoDup (keys (vars (Obj [])))) as H0 by constructor.
  revert H0. generalize (Obj []). induction d as [|[k v] d IH]; intros self Hnd; simpl.
  - now intros [= <-].
  - destruct (entry self k v) as [s|e] eqn:E; [|discriminate]. simpl.
    apply IH. now apply (create_entry_NoDup _ _ _ _ E).
Qed.

End Builder.

(** C1, as stated, fails: the builder stores the unit as it was given.
    The text with "year" rewritten is a local value, used for the two
    lookups only. *)
Lemma unit_raw_counterexample :
  exists o,
    __init__ sample_cast sample_units sample_times
      (DDict [("dmtype", DScalar (PStr "ivoa:RealQuantity"));
              ("unit", DScalar (PStr "mas/year"));
              ("ref", DScalar (PStr "pmra"))]) = Ok o /\
    getattr o "unit" = Ok (Scalar (PStr "mas/year")) /\
    getattr o "unit" <> Ok (Scalar (PStr "mas/yr")) /\
    getattr o "astropy_unit" = Ok (Scalar (PObj "mas / yr")).
Proof. eexists. repeat split. discriminate. Qed.

(** C1 (amended).  A round of the builder on [unit] with a text [u] never
    raises.  It stores [u], name-normalized and otherwise as given (for
    ["mas/year"]: ["mas/year"]); it looks up [u] with "year" rewritten to
    "yr" (["mas/yr"]) and attaches [astropy_unit] when the unit table has
    that name; when [u] is empty or neither table has the name, it adds
    nothing else.  The object built from a dictionary with that entry shows
    the stored unit and the attached [astropy_unit] as long as no later
    entry of the dictionary writes [unit], [astropy_unit] or
    [astropy_unit_time] (a later key ["a:unit"] does), and shows no derived
    attribute in the last case as long as no earlier entry wrote one
    either.  (The keys of the dictionary are ordinary names.) *)
Theorem unit_entry_built (cast : pyval -> attr -> result pyval)
    (um : gmap string pyval) (tf : gset string) (u : string) :
  let u' := PyStr.replace "year" "yr" u in
  let raw := Scalar (PStr (_remove_model_name u false)) in
  (forall self,
      exists self',
        create_entry cast um tf (__init__ cast um tf) self "unit" (DScalar (PStr u))
        = Ok self' /\
        dict_get "unit" (vars self') = Some raw /\
        (forall au, u <> "" -> um !! u' = Some au ->
                    self' = setattr (setattr self "unit" raw) "astropy_unit" (Scalar au)) /\
        (u = "" \/ (um !! u' = None /\ u' ∉ tf) -> self' = setattr self "unit" raw)) /\
  (forall pre post o,
      ordinary_data (DDict (pre ++ ("unit", DScalar (PStr u)) :: post)) = true ->
      __init__ cast um tf (DDict (pre ++ ("unit", DScalar (PStr u)) :: post)) = Ok o ->
      unwritten "unit" post -> unwritten "astropy_unit" post ->
      unwritten "astropy_unit_time" post ->
      dict_get "unit" (vars o) = Some raw /\
      (forall au, u <> "" -> um !! u' = Some au ->
                  dict_get "astropy_unit" (vars o) = Some (Scalar au)) /\
      (u = "" \/ (um !! u' = None /\ u' ∉ tf) ->
       unwritten "astropy_unit" pre -> unwritten "astropy_unit_time" pre ->
       dict_get "astropy_unit" (vars o) = None /\
       dict_get "astropy_unit_time" (vars o) = None)).
Proof.
  intros u' raw.
  assert (forall self,
      exists self',
        create_entry cast um tf (__init__ cast um tf) self "unit" (DScalar (PStr u))
        = Ok self' /\
        dict_get "unit" (vars self') = Some raw /\
        (forall au, u <> "" -> um !! u' = Some au ->
                    self' = setattr (setattr self "unit" raw) "astropy_unit" (Scalar au)) /\
        (u = "" \/ (um !! u' = None /\ u' ∉ tf) -> self' = setattr self "unit" raw))
    as Hentry.
  { intros self. rewrite create_entry_unit. unfold attach_unit, unit_name.
    cbn [_remove_model_name_value truthy]. fold raw.
    destruct (String.eqb_spec u "") as [->|Hu]; cbn [negb mbind result_bind].
    - eexists. split; [reflexivity|]. split; [apply get_setattr_eq|].
      split; [congruence|reflexivity].
    - fold u'. destruct (um !! u') as [au|] eqn:Eu.
      + eexists. split; [reflexivity|]. split.
        * rewrite get_setattr_ne by discriminate. apply get_setattr_eq.
        * split; [now intros au' _ [= <-]|]. intros [?|[? _]]; congruence.
      + destruct (decide (u' ∈ tf)) as [Hin|Hnot].
        * eexists. split; [reflexivity|]. split.
          -- rewrite get_setattr_ne by discriminate. apply get_setattr_eq.
          -- split; [discriminate|]. intros [?|[_ ?]]; [congruence|contradiction].
        * eexists. split; [reflexivity|]. split; [apply get_setattr_eq|].
          split; [discriminate|reflexivity]. }
  split; [exact Hentry|].
  intros pre post o _ Hbuild U1 U2 U3. rewrite init_eq in Hbuild.
  apply create_loop_split in Hbuild as (s1 & s2 & Hpre & He & Hpost).
  destruct (Hentry s1) as (s2' & He' & Hunit & Hhit & Hmiss).
  rewrite He in He'. injection He' as <-.
  rewrite !(create_loop_other _ _ _ _ _ _ _ Hpost) by assumption.
  split; [exact Hunit|]. split.
  - intros au Hu Hau. rewrite (Hhit au Hu Hau). apply get_setattr_eq.
  - intros Hm V1 V2. rewrite (Hmiss Hm).
    rewrite !get_setattr_ne by discriminate.
    rewrite !(create_loop_other _ _ _ _ _ _ _ Hpre) by assumption.
    split; reflexivity.
Qed.

Lemma unit_entry_built_witness :
  let o := Obj [("dmtype", Scalar (PStr "RealQuantity"));
                ("unit", Scalar (PStr "mas/year"));
                ("astropy_unit", Scalar (PObj "mas / yr"));
                ("ref", Scalar (PStr "pmra"))] in
  dict_get "unit" (vars o) = Some (Scalar (PStr "mas/year")) /\
  dict_get "astropy_unit" (vars o) = Some (Scalar (PObj "mas / yr")).
Proof.
  intros o.
  destruct (proj2 (unit_entry_built sample_cast sample_units sample_times "mas/year")
              [("dmtype", DScalar (PStr "ivoa:RealQuantity"))]
              [("ref", DScalar (PStr "pmra"))] o eq_refl eq_refl) as (Hu & Hau & _).
  - intros key value [[= <- <-]|[]]. cbv. intuition discriminate.
  - intros key value [[= <- <-]|[]]. cbv. intuition discriminate.
  - intros key value [[= <- <-]|[]]. cbv. intuition discriminate.
  - split; [exact Hu|]. apply (Hau (PObj "mas / yr")); [discriminate|reflexivity].
Defined.

(** ** The dictionary views *)

Lemma get_object_dict_eq slim d :
  get_object_dict slim (Obj d)
  = DDict (if slim then slim_down (public_items (_get_class_dict slim) d)
           else public_items (_get_class_dict slim) d).
Proof. reflexivity. Qed.

Lemma dict_get_public f k d :
  dict_get k (public_items f d)
  = if PyStr.startswith "_" k then None else option_map f (dict_get k d).
Proof.
  induction d as [|[k0 a] d IH]; simpl.
  - now destruct (PyStr.startswith "_" k).
  - destruct (String.eqb_spec k0 k) as [->|N].
    + destruct (PyStr.startswith "_" k) eqn:E; simpl.
      * exact IH.
      * now rewrite String.eqb_refl.
    + destruct (PyStr.startswith "_" k0); simpl; [exact IH|].
      apply String.eqb_neq in N. now rewrite N.
Qed.

Lemma keys_public_incl f d k : In k (keys (public_items f d)) -> In k (keys d).
Proof.
  unfold keys. induction d as [|[k0 a] d IH]; simpl; [tauto|].
  destruct (PyStr.startswith "_" k0); simpl; tauto.
Qed.

Lemma public_NoDup f d : List.NoDup (keys d) -> List.NoDup (keys (public_items f d)).
Proof.
  unfold keys. induction d as [|[k0 a] d IH]; simpl; [constructor|].
  intros H. inversion H as [|? ? Hn Hd]; subst.
  destruct (PyStr.startswith "_" k0); simpl; [auto|].
  constructor; [|auto]. intros Hin. apply Hn. now apply (keys_public_incl f).
Qed.

Lemma dict_get_pop_ne {A} k k' (d : list (string * A)) :
  k <> k' -> dict_get k' (dict_pop k d) = dict_get k' d.
Proof.
  intros N. apply String.eqb_neq in N.
  induction d as [|[k0 v0] d IH]; simpl; [reflexivity|].
  destruct (String.eqb_spec k0 k) as [->|N0]; simpl.
  - now rewrite N.
  - now rewrite IH.
Qed.

Lemma dict_get_pop_eq {A} k (d : list (string * A)) :
  List.NoDup (keys d) -> dict_get k (dict_pop k d) = None.
Proof.
  unfold keys. induction d as [|[k0 v0] d IH]; simpl; [reflexivity|].
  intros H. inversion H as [|? ? Hn Hd]; subst.
  destruct (String.eqb_spec k0 k) as [->|N0]; simpl.
  - now apply dict_get_None_keys.
  - apply String.eqb_neq in N0. rewrite N0. auto.
Qed.

Lemma keys_pop_incl {A} k (d : list (string * A)) x :
  In x (keys (dict_pop k d)) -> In x (keys d).
Proof.
  unfold keys. induction d as [|[k0 v0] d IH]; simpl; [tauto|].
  destruct (String.eqb k0 k); simpl; tauto.
Qed.

Lemma dict_pop_NoDup {A} k (d : list (string * A)) :
  List.NoDup (keys d) -> List.NoDup (keys (dict_pop k d)).
Proof.
  unfold keys. induction d as [|[k0 v0] d IH]; simpl; [constructor|].
  intros H. inversion H as [|? ? Hn Hd]; subst.
  destruct (String.eqb k0 k); simpl; [assumption|].
  constructor; [|auto]. intros Hin. apply Hn. now apply (keys_pop_incl k).
Qed.

Lemma dict_get_pop_None {A} k k' (d : list (string * A)) :
  List.NoDup (keys d) -> dict_get k' d = None -> dict_get k' (dict_pop k d) = None.
Proof.
  intros Hnd H. destruct (String.eqb_spec k k') as [->|N].
  - now apply dict_get_pop_eq.
  - now rewrite dict_get_pop_ne.
Qed.

Lemma slim_down_eq data :
  slim_down data
  = dict_pop "ref" (dict_pop "astropy_unit" (drop_unit (drop_dmtype data))).
Proof. reflexivity. Qed.

Lemma drop_dmtype_NoDup data :
  List.NoDup (keys data) -> List.NoDup (keys (drop_dmtype data)).
Proof.
  unfold drop_dmtype. destruct (_ || _); [apply dict_pop_NoDup|auto].
Qed.

Lemma drop_unit_NoDup data :
  List.NoDup (keys data) -> List.NoDup (keys (drop_unit data)).
Proof.
  unfold drop_unit. destruct (dict_get "unit" data) as [u|]; [|auto].
  destruct (negb (data_truthy u)); [apply dict_pop_NoDup|auto].
Qed.

Lemma drop_unit_None k data :
  List.NoDup (keys data) -> dict_get k data = None -> dict_get k (drop_unit data) = None.
Proof.
  unfold drop_unit. intros Hnd H. destruct (dict_get "unit" data) as [u|]; [|auto].
  destruct (negb (data_truthy u)); [now apply dict_get_pop_None|auto].
Qed.

Lemma slim_down_None k data :
  List.NoDup (keys data) ->
  dict_get k (drop_unit (drop_dmtype data)) = None ->
  dict_get k (slim_down data) = None.
Proof.
  intros Hnd H. rewrite slim_down_eq.
  apply dict_get_pop_None; [|apply dict_get_pop_None]; auto;
    repeat first [apply dict_pop_NoDup|apply drop_unit_NoDup|apply drop_dmtype_NoDup];
    assumption.
Qed.

(** C4.  The slim view does not hide the time-format tag.  The builder
    attaches [astropy_unit] or [astropy_unit_time] in the same round on
    [unit]; [hk_parameters], the parameters "that must be hidden for the
    final user", lists the first and not the second.  For a leaf with the
    unit ["deg"] the slim view is the unit alone; for the same leaf with
    the time format ["mjd"] it still carries [astropy_unit_time], which the
    claim, and the description of [slim] in [_get_class_dict] (only values
    and units on the leaves), say is dropped. *)
Theorem slim_time_tag_kept :
  let leaf u := DDict [("dmtype", DScalar (PStr "ivoa:RealQuantity"));
                       ("unit", DScalar (PStr u));
                       ("ref", DScalar (PStr "c1"))] in
  (exists o,
      __init__ sample_cast sample_units sample_times (leaf "deg") = Ok o /\
      getattr o "astropy_unit" = Ok (Scalar (PObj "deg")) /\
      dict o = DDict [("unit", DScalar (PStr "deg"))]) /\
  (exists o,
      __init__ sample_cast sample_units sample_times (leaf "mjd") = Ok o /\
      getattr o "astropy_unit_time" = Ok (Scalar (PStr "mjd")) /\
      dict o = DDict [("unit", DScalar (PStr "mjd"));
                      ("astropy_unit_time", DScalar (PStr "mjd"))] /\
      hk_dict o = DDict [("dmtype", DScalar (PStr "RealQuantity"));
                         ("unit", DScalar (PStr "mjd"));
                         ("astropy_unit_time", DScalar (PStr "mjd"));
                         ("ref", DScalar (PStr "c1"))]).
Proof. split; eexists; repeat split. Qed.



Lemma data_get_hk_dict name o :
  PyStr.startswith "_" name = false ->
  data_get name (hk_dict o) = option_map (_get_class_dict false) (dict_get name (vars o)).
Proof.
  destruct o as [d]. intros H. unfold hk_dict. rewrite get_object_dict_eq.
  simpl. now rewrite dict_get_public, H.
Qed.


(** What a round stores under the name of its entry. *)
Lemma create_entry_stored cast um tf self key value self' :
  create_entry cast um tf (__init__ cast um tf) self key value = Ok self' ->
  match value with
  | DScalar v =>
      if String.eqb key "value"
      then exists dm c, getattr self "dmtype" = Ok dm /\ cast v dm = Ok c /\
                        dict_get (target key value) (vars self') = Some (Scalar c)
      else dict_get (target key value) (vars self')
           = Some (Scalar (_remove_model_name_value v))
  | DDict _ =>
      exists o', __init__ cast um tf value = Ok o' /\
                 dict_get (target key value) (vars self') = Some (Instance o')
  | DList l =>
      exists items, Forall2 (fun item o' => __init__ cast um tf item = Ok o') l items /\
                    dict_get (target key value) (vars self') = Some (Collection items)
  end.
Proof.
  destruct value as [v|d|l]; cbn [target].
  - cbn [create_entry].
    destruct (String.eqb_spec key "value") as [->|Nv].
    + change (String.eqb "value" "unit") with false.
      destruct (getattr self "dmtype") as [dm|e]; [|discriminate].
      cbn [mbind result_bind]. destruct (cast v dm) as [c|e] eqn:Ec; [|discriminate].
      cbn [mbind result_bind]. intros [= <-]. exists dm, c.
      repeat split; auto. apply get_setattr_eq.
    + cbn [mbind result_bind]. destruct (String.eqb_spec key "unit") as [->|Nu].
      * intros H. rewrite (attach_unit_other _ _ _ _ _ _ H) by discriminate.
        apply get_setattr_eq.
      * intros [= <-]. apply get_setattr_eq.
  - rewrite create_entry_instance.
    destruct (__init__ cast um tf (DDict d)) as [o'|e]; [|discriminate].
    cbn [mbind result_bind]. intros [= <-]. exists o'. split; [reflexivity|].
    apply get_setattr_eq.
  - rewrite create_entry_collection.
    destruct (new_items (__init__ cast um tf) l) as [items|e] eqn:E; [|discriminate].
    cbn [mbind result_bind]. intros [= <-]. exists items.
    split; [now apply new_items_spec|apply get_setattr_eq].
Qed.



(** * Further properties *)

(** ** The name normalizer *)

Lemma remove_model_name_no_colon value role_instance :
  contains ":" value = false -> _remove_model_name value role_instance = value.
Proof.
  intros H. unfold _remove_model_name.
  destruct (find_spec ":" value) as [[_ Hf]|[Hc _]]; [now rewrite Hf|congruence].
Qed.

Lemma remove_model_name_role value :
  contains ":" value = true ->
  _remove_model_name value true = map_chars underscore (after_first ":" value).
Proof.
  intros H. unfold _remove_model_name.
  destruct (find_spec ":" value) as [[Hc _]|[_ [Hf Hs]]]; [congruence|].
  destruct (Z.eqb_spec (PyStr.find ":" value) (-1)); [lia|]. cbn [negb].
  rewrite andb_false_r, (slice_from_succ _ _ Hf), Hs. apply replace_separators.
Qed.

Lemma remove_model_name_undotted value :
  contains ":" value = true -> contains "." value = false ->
  _remove_model_name value false = map_chars underscore (after_first ":" value).
Proof.
  intros H Hd. unfold _remove_model_name.
  destruct (find_spec ":" value) as [[Hc _]|[_ [Hf Hs]]]; [congruence|].
  destruct (Z.eqb_spec (PyStr.find ":" value) (-1)); [lia|]. cbn [negb].
  destruct (rfind_spec "." value) as [[_ Hr]|[Hd' _]]; [|congruence].
  rewrite Hr. cbn [Z.eqb negb andb].
  rewrite (slice_from_succ _ _ Hf), Hs. apply replace_separators.
Qed.

Lemma remove_model_name_dotted value :
  contains ":" value = true -> contains "." value = true ->
  _remove_model_name value false = after_last "." value.
Proof.
  intros H Hd. unfold _remove_model_name.
  destruct (find_spec ":" value) as [[Hc _]|[_ [Hf _]]]; [congruence|].
  destruct (Z.eqb_spec (PyStr.find ":" value) (-1)); [lia|]. cbn [negb].
  destruct (rfind_spec "." value) as [[Hd' _]|[_ [Hr Hl]]]; [congruence|].
  destruct (Z.eqb_spec (PyStr.rfind "." value) (-1)); [lia|]. cbn [negb andb].
  now rewrite (slice_from_succ _ _ Hr).
Qed.

Lemma contains_underscored c s :
  c = ":"%char \/ c = "."%char -> contains c (map_chars underscore s) = false.
Proof.
  intros Hc. induction s as [|a s IH]; [reflexivity|].
  cbn [map_chars contains]. rewrite IH, orb_false_r. unfold underscore.
  destruct (Ascii.eqb_spec a ":") as [->|N1]; cbn [orb].
  - destruct Hc as [->| ->]; reflexivity.
  - destruct (Ascii.eqb_spec a ".") as [->|N2].
    + destruct Hc as [->| ->]; reflexivity.
    + apply Ascii.eqb_neq. destruct Hc as [->| ->]; assumption.
Qed.

Lemma contains_after_last c s : contains c (after_last c s) = false.
Proof.
  induction s as [|a s IH]; [reflexivity|]. cbn [after_last].
  destruct (contains c s) eqn:E; [exact IH|].
  destruct (Ascii.eqb a c) eqn:Ea; [exact E|].
  cbn [contains]. now rewrite Ea, E.
Qed.

(** X1.  With [role_instance], a token that has a colon is normalized to a
    name without colon and without dot; and whatever the token, the name
    obtained is left as it is by a further normalization, in either mode. *)
Theorem remove_model_name_role_clean (value : string) :
  let name := _remove_model_name value true in
  (contains ":" value = true ->
   contains ":" name = false /\ contains "." name = false) /\
  (forall role_instance, _remove_model_name name role_instance = name).
Proof.
  intros name. subst name.
  destruct (contains ":" value) eqn:Hc.
  - rewrite (remove_model_name_role _ Hc).
    assert (contains ":" (map_chars underscore (after_first ":" value)) = false) as H1
        by (apply contains_underscored; now left).
    split; [intros _; split; [exact H1|apply contains_underscored; now right]|].
    intros role_instance. now apply remove_model_name_no_colon.
  - rewrite (remove_model_name_no_colon _ _ Hc).
    split; [discriminate|]. intros role_instance.
    now apply remove_model_name_no_colon.
Qed.

(** X2.  Without [role_instance], a token that has a colon is normalized
    to a name without dot. *)
Theorem remove_model_name_simple_undotted (value : string) :
  contains ":" value = true ->
  contains "." (_remove_model_name value false) = false.
Proof.
  intros Hc. destruct (contains "." value) eqn:Hd.
  - rewrite (remove_model_name_dotted _ Hc Hd). apply contains_after_last.
  - rewrite (remove_model_name_undotted _ Hc Hd).
    apply contains_underscored. now right.
Qed.

Lemma remove_model_name_simple_undotted_witness :
  contains ":" "mango:EpochPosition.longitude" = true /\
  contains "." (_remove_model_name "mango:EpochPosition.longitude" false) = false.
Proof.
  split; [reflexivity|].
  apply (remove_model_name_simple_undotted "mango:EpochPosition.longitude").
  reflexivity.
Defined.

(** X17.  The simple name of every token.  Without [role_instance], a
    token without a colon is returned unchanged; a token with a colon and a
    dot, wherever the dot stands, is cut after its last dot (so
    ["a.b:c"] gives ["b:c"]); a token with a colon and no dot is cut after
    its first colon and the colons left become underscores. *)
Theorem remove_model_name_simple (value : string) :
  _remove_model_name value false
  = if negb (contains ":" value) then value
    else if contains "." value then after_last "." value
         else map_chars underscore (after_first ":" value).
Proof.
  unfold _remove_model_name.
  destruct (find_spec ":" value) as [[Hc Hf]|[Hc [Hf Hs]]]; rewrite Hc.
  - now rewrite Hf.
  - destruct (Z.eqb_spec (PyStr.find ":" value) (-1)); [lia|]. cbn [negb].
    rewrite (slice_from_succ _ _ Hf), Hs, replace_separators.
    destruct (rfind_spec "." value) as [[Hd Hr]|[Hd [Hr Hl]]]; rewrite Hd.
    + now rewrite Hr.
    + destruct (Z.eqb_spec (PyStr.rfind "." value) (-1)); [lia|]. cbn [negb andb].
      now rewrite (slice_from_succ _ _ Hr), Hl.
Qed.

(** ** The builder *)

(** X3.  [_is_leaf] answers [False] exactly when one of the values of the
    dictionary is itself a dictionary; a list, whatever it holds, does not
    count. *)
Theorem is_leaf_false_iff (kwargs : list (string * pydata)) :
  _is_leaf kwargs = false <-> exists key d, In (key, DDict d) kwargs.
Proof.
  induction kwargs as [|[k v] rest IH]; simpl.
  - split; [discriminate|]. now intros (key & d & []).
  - destruct v as [v|d|l].
    + rewrite IH. split.
      * intros (key & d & H). exists key, d. now right.
      * intros (key & d & [[=]|H]). now exists key, d.
    + split; [|reflexivity]. intros _. exists k, d. now left.
    + rewrite IH. split.
      * intros (key & d & H). exists key, d. now right.
      * intros (key & d & [[=]|H]). now exists key, d.
Qed.



(** *** The unit that is looked up never has "year" in it *)

Lemma prefix_cons a p b s :
  String.prefix (String a p) (String b s)
  = Ascii.eqb a b && String.prefix p s.
Proof.
  cbn [String.prefix]. destruct (ascii_dec a b) as [->|N].
  - now rewrite Ascii.eqb_refl.
  - apply Ascii.eqb_neq in N. now rewrite N.
Qed.

Lemma replace_from_year_step c s :
  PyStr.replace_from "year" "yr" 0 (String c s)
  = if String.prefix "year" (String c s)
    then String "y" (String "r" (PyStr.replace_from "year" "yr" 3 s))
    else String c (PyStr.replace_from "year" "yr" 0 s).
Proof. reflexivity. Qed.

(** A text without "y" that starts the rewritten string starts the
    original one. *)
Lemma prefix_replace_year p : forall s,
  contains "y" p = false ->
  String.prefix p (PyStr.replace_from "year" "yr" 0 s) = true ->
  String.prefix p s = true.
Proof.
  induction p as [|a p IH]; intros s Hy; [now destruct s|].
  cbn [contains] in Hy. apply orb_false_iff in Hy as [Ha Hp].
  destruct s as [|c s]; [discriminate|].
  rewrite replace_from_year_step.
  destruct (String.prefix "year" (String c s)).
  - rewrite prefix_cons, Ha. discriminate.
  - rewrite !prefix_cons. intros H. apply andb_true_iff in H as [H1 H2].
    rewrite H1. now apply IH.
Qed.

Lemma occurs_replace_year s : forall pending,
  occurs "year" (PyStr.replace_from "year" "yr" pending s) = false.
Proof.
  induction s as [|c s IH]; intros pending; [reflexivity|].
  destruct pending as [|p]; [|apply IH].
  rewrite replace_from_year_step.
  destruct (String.prefix "year" (String c s)) eqn:E.
  - cbn [occurs]. rewrite IH, !prefix_cons. reflexivity.
  - cbn [occurs]. rewrite IH, orb_false_r.
    destruct (String.prefix "year" (String c (PyStr.replace_from "year" "yr" 0 s)))
      eqn:E'; [|reflexivity].
    rewrite prefix_cons in E'. apply andb_true_iff in E' as [E1 E2].
    apply prefix_replace_year in E2; [|reflexivity].
    rewrite prefix_cons, E1, E2 in E. discriminate.
Qed.


(** *** Where the attributes of a built object come from *)

Lemma create_loop_origin cast um tf name kwargs : forall self o,
  create_loop cast um tf (__init__ cast um tf) self kwargs = Ok o ->
  hasvar name o = true ->
  hasvar name self = true \/
  exists key value, In (key, value) kwargs /\ In name (targets key value).
Proof.
  induction kwargs as [|[k v] rest IH]; intros self o; simpl.
  - intros [= <-]. now left.
  - destruct (create_entry cast um tf (__init__ cast um tf) self k v) as [s1|e] eqn:E;
      [|discriminate]. cbn [mbind result_bind].
    intros Hloop Ho. destruct (IH _ _ Hloop Ho) as [Hs1|(key & value & Hin & Ht)].
    + destruct (in_dec string_dec name (targets k v)) as [Hin|Hnot].
      * right. exists k, v. split; [now left|exact Hin].
      * left. unfold hasvar, dict_has in *.
        now rewrite <- (create_entry_other _ _ _ _ _ _ _ _ E Hnot).
    + right. exists key, value. split; [now right|exact Ht].
Qed.

(** X6.  Every attribute of a built object was written for an entry of
    the dictionary: its name is the normalized key of an entry, or
    [astropy_unit] or [astropy_unit_time] where the dictionary has a
    [unit]. *)
Theorem built_attribute_origin (cast : pyval -> attr -> result pyval)
    (um : gmap string pyval) (tf : gset string)
    (kwargs : list (string * pydata)) (o : MivotInstance) (name : string) :
  __init__ cast um tf (DDict kwargs) = Ok o ->
  hasvar name o = true ->
  exists key value, In (key, value) kwargs /\ In name (targets key value).
Proof.
  rewrite init_eq. intros Hbuild Ho.
  destruct (create_loop_origin _ _ _ _ _ _ _ Hbuild Ho) as [H|H]; [discriminate|exact H].
Qed.

Lemma built_attribute_origin_witness :
  exists key value,
    In (key, value) [("dmtype", DScalar (PStr "ivoa:RealQuantity"));
                     ("unit", DScalar (PStr "deg"))] /\
    In "astropy_unit" (targets key value).
Proof.
  apply (built_attribute_origin sample_cast sample_units sample_times
           [("dmtype", DScalar (PStr "ivoa:RealQuantity")); ("unit", DScalar (PStr "deg"))]
           (Obj [("dmtype", Scalar (PStr "RealQuantity")); ("unit", Scalar (PStr "deg"));
                 ("astropy_unit", Scalar (PObj "deg"))]) "astropy_unit");
    reflexivity.
Defined.

(** *** A list with an item that is not a dictionary *)

Lemma new_items_raise cast um tf l1 items1 item l2 e :
  Forall2 (fun it o => __init__ cast um tf it = Ok o) l1 items1 ->
  __init__ cast um tf item = Raise e ->
  new_items (__init__ cast um tf) (l1 ++ item :: l2) = Raise e.
Proof.
  intros HF He. induction HF as [|it o l1 items1 Hit _ IH]; simpl.
  - now rewrite He.
  - now rewrite Hit, IH.
Qed.



(** ** The row binder *)
Section UpdateMore.
Variable cast : pyval -> attr -> result pyval.
Variable row : gmap string pyval.

Lemma update_attr_value_raise self ref v e :
  is_None ref = false -> eq_null ref = false ->
  (x ← row_getitem row ref; dmtype ← getattr self "dmtype"; cast x dmtype) = Raise e ->
  update_attr cast row (update cast row) self ref "value" (Scalar v)
  = (Scalar v, Some e).
Proof. intros H1 H2 H3. simpl. now rewrite H1, H2, H3. Qed.

(** Whatever raises in the computation of the new [value], the leaf is
    left as it is. *)
Lemma update_leaf_raise_any ref leaf e :
  scalars_only leaf = true -> hasvar "value" leaf = true ->
  is_None ref = false -> eq_null ref = false ->
  (x ← row_getitem row ref; dmtype ← getattr leaf "dmtype"; cast x dmtype) = Raise e ->
  update cast row ref leaf = (leaf, Some e).
Proof.
  destruct leaf as [d]. unfold scalars_only, hasvar. simpl.
  intros Hs Hv H1 H2 H3.
  destruct (dict_split _ _ Hv) as (pre & v & post & -> & Hpre).
  rewrite forallb_app in Hs. apply andb_true_iff in Hs as [Hs1 Hs2].
  simpl in Hs2. destruct v as [v| |]; try discriminate.
  apply update_visited_raise with (pre' := pre).
  - apply visited_untouched. rewrite forallb_forall in *.
    intros kv Hin. rewrite (Hs1 kv Hin). simpl.
    specialize (Hpre kv Hin). apply negb_true_iff in Hpre. now rewrite Hpre.
  - now apply update_attr_value_raise.
Qed.

Lemma update_parent_of_leaf key leaf r ref :
  hasvar "value" leaf = true -> getattr leaf "ref" = Ok r ->
  update cast row ref (Obj [(key, Instance leaf)])
  = (Obj [(key, Instance (fst (update cast row r leaf)))], snd (update cast row r leaf)).
Proof.
  intros Hv Hr. rewrite update_eq. cbn [update_loop app].
  rewrite update_attr_instance, Hv, Hr.
  destruct (update cast row r leaf) as [leaf' [e|]]; reflexivity.
Qed.

End UpdateMore.





(** X10.  The reference given to [update] only serves the scalar [value]
    of the object it is called on: for an object without a scalar attribute
    named [value], [update] does the same whatever the reference, since a
    nested object is given its own [ref] and an item of a collection none. *)
Theorem update_ref_unused (cast : pyval -> attr -> result pyval)
    (row : gmap string pyval) (self : MivotInstance) (ref1 ref2 : attr) :
  (forall v, ~ In ("value", Scalar v) (vars self)) ->
  update cast row ref1 self = update cast row ref2 self.
Proof.
  destruct self as [d]. simpl. intros Hv. rewrite !update_eq.
  enough (forall todo done,
             (forall v, ~ In ("value", Scalar v) todo) ->
             update_loop cast row (update cast row) ref1 done todo
             = update_loop cast row (update cast row) ref2 done todo) as H
      by now rewrite (H d [] Hv).
  clear. induction todo as [|[k a] rest IH]; intros done Hv; [reflexivity|].
  cbn [update_loop].
  assert (update_attr cast row (update cast row) (Obj (done ++ (k, a) :: rest)) ref1 k a
          = update_attr cast row (update cast row) (Obj (done ++ (k, a) :: rest)) ref2 k a)
    as ->.
  { destruct a as [v| |]; try reflexivity. cbn [update_attr].
    destruct (String.eqb_spec k "value") as [->|N]; [|reflexivity].
    elim (Hv v). now left. }
  destruct (update_attr _ _ _ _ ref2 k a) as [a' [e|]]; [reflexivity|].
  apply IH. intros v Hin. apply (Hv v). now right.
Qed.

Lemma update_ref_unused_witness :
  update sample_cast {[ "c1" := PStr "3.5" ]} (Scalar (PStr "c1"))
    (Obj [("dmtype", Scalar (PStr "Point"))])
  = update sample_cast {[ "c1" := PStr "3.5" ]} None_
      (Obj [("dmtype", Scalar (PStr "Point"))]).
Proof.
  apply (update_ref_unused sample_cast {[ "c1" := PStr "3.5" ]}
           (Obj [("dmtype", Scalar (PStr "Point"))])).
  intros v [[=]|[]].
Defined.

Section UpdateAgain.
Variable cast : pyval -> attr -> result pyval.
Variable row : gmap string pyval.

Lemma update_items_fixed items :
  Forall (fun o => update cast row None_ o = (o, None)) items ->
  update_items (update cast row) items = (items, None).
Proof.
  induction 1 as [|o items Ho _ IH]; [reflexivity|].
  cbn [update_items]. fold None_. now rewrite Ho, IH.
Qed.

Lemma same_shape_scalar o o' name v :
  same_shape o o' -> name <> "value" ->
  dict_get name (vars o) = Some (Scalar v) ->
  dict_get name (vars o') = Some (Scalar v).
Proof.
  intros [d d' HF] N Hget. simpl in *.
  destruct (dict_get_rounds same_shape_attr _ _ _ _ HF Hget) as (a' & Hget' & HR).
  inversion HR; subst. rewrite Hget'. repeat f_equal. auto.
Qed.

Lemma dict_get_In {A} k (d : list (string * A)) a :
  dict_get k d = Some a -> In (k, a) d.
Proof.
  induction d as [|[k0 a0] d IH]; simpl; [discriminate|].
  destruct (String.eqb_spec k0 k) as [->|N]; [intros [= ->]; now left|].
  intros H. right. now apply IH.
Qed.

Lemma tidy_eq d : tidy (Obj d) = forallb tidy_entry d.
Proof. reflexivity. Qed.

Lemma tidy_entry_scalar k a :
  tidy_entry (k, a) = true -> k = "dmtype" \/ k = "ref" -> exists v, a = Scalar v.
Proof.
  unfold tidy_entry. simpl. destruct a as [v|o|items]; [eauto| |];
    intros H [-> | ->]; discriminate H.
Qed.

(** A run without exception leaves a scalar [dmtype] where it finds it. *)
Lemma rounds_dmtype ref pre pre' :
  Forall2 (fun kv kv' : string * attr =>
             fst kv' = fst kv /\
             exists self, update_attr cast row (update cast row) self ref (fst kv) (snd kv)
                          = (snd kv', None)) pre pre' ->
  forallb tidy_entry pre = true ->
  dict_get "dmtype" pre' = dict_get "dmtype" pre.
Proof.
  induction 1 as [|[k a] [k' a'] pre pre' [E [self Hs]] _ IH]; [reflexivity|].
  simpl in E, Hs. subst k'. cbn [forallb dict_get].
  intros Ht. apply andb_true_iff in Ht as [Ha Ht]. rewrite (IH Ht).
  destruct (String.eqb_spec k "dmtype") as [->|N]; [|reflexivity].
  destruct (tidy_entry_scalar _ _ Ha (or_introl eq_refl)) as [v ->].
  rewrite update_attr_unbound in Hs by reflexivity. now injection Hs as <-.
Qed.

#[local] Abbreviation repeatable := (repeatable cast row).

Lemma repeat_round ref done k a pre pre' a' :
  below repeatable a -> tidy_entry (k, a) = true ->
  forallb tidy_entry pre = true ->
  Forall2 (fun kv kv' : string * attr =>
             fst kv' = fst kv /\
             exists self, update_attr cast row (update cast row) self ref (fst kv) (snd kv)
                          = (snd kv', None)) pre pre' ->
  update_attr cast row (update cast row) (Obj (done ++ (k, a) :: pre)) ref k a
  = (a', None) ->
  update_attr cast row (update cast row) (Obj (done ++ (k, a') :: pre')) ref k a'
  = (a', None).
Proof.
  intros IH Ht Hpre HF Hstep. destruct a as [v|o1|items].
  - cbn [update_attr] in Hstep |- *.
    destruct (String.eqb k "value" && negb (is_None ref) && negb (eq_null ref)) eqn:Hb.
    + assert (k = "value") as ->.
      { apply andb_true_iff in Hb as [Hb _]. apply andb_true_iff in Hb as [Hk _].
        now apply String.eqb_eq in Hk. }
      assert (getattr (Obj (done ++ ("value", a') :: pre')) "dmtype"
              = getattr (Obj (done ++ ("value", Scalar v) :: pre)) "dmtype") as Hd.
      { unfold getattr. simpl. rewrite !dict_get_app. cbn [dict_get].
        change (String.eqb "value" "dmtype") with false. cbn iota.
        now rewrite (rounds_dmtype _ _ _ HF Hpre). }
      destruct (x ← row_getitem row ref; dmtype ← getattr _ "dmtype"; cast x dmtype)
        as [c|e] eqn:Hc; [|discriminate].
      injection Hstep as <-. cbn [update_attr].
      now rewrite Hb, Hd, Hc.
    + injection Hstep as <-. cbn [update_attr]. now rewrite Hb.
  - simpl in IH. unfold tidy_entry in Ht. simpl in Ht.
    apply andb_true_iff in Ht as [_ Ht].
    rewrite update_attr_instance in Hstep.
    destruct (hasvar "value" o1) eqn:Hv.
    + destruct (getattr o1 "ref") as [r|e] eqn:Hr; [|discriminate].
      destruct (update cast row r o1) as [o1' [e|]] eqn:Hu; [discriminate|].
      injection Hstep as <-. rewrite update_attr_instance.
      assert (o1' = fst (update cast row r o1)) as Ho by now rewrite Hu.
      assert (hasvar "value" o1' = true) as ->
          by (rewrite Ho, update_hasvar; exact Hv).
      assert (getattr o1' "ref" = Ok r) as ->.
      { unfold getattr in *. destruct (dict_get "ref" (vars o1)) as [r0|] eqn:Hg;
          [|discriminate]. injection Hr as ->.
        destruct o1 as [d1]. rewrite tidy_eq in Ht. simpl in Hg.
        pose proof (dict_get_In _ _ _ Hg) as Hin.
        rewrite forallb_forall in Ht. specialize (Ht _ Hin).
        destruct (tidy_entry_scalar _ _ Ht (or_intror eq_refl)) as [rv ->].
        rewrite (same_shape_scalar (Obj d1) o1' "ref" rv); [reflexivity| |discriminate|exact Hg].
        rewrite Ho. apply update_shape. }
      now rewrite (IH Ht r o1' Hu).
    + destruct (update cast row None_ o1) as [o1' [e|]] eqn:Hu; [discriminate|].
      injection Hstep as <-. rewrite update_attr_instance.
      assert (o1' = fst (update cast row None_ o1)) as Ho by now rewrite Hu.
      assert (hasvar "value" o1' = false) as ->
          by (rewrite Ho, update_hasvar; exact Hv).
      now rewrite (IH Ht None_ o1' Hu).
  - simpl in IH. unfold tidy_entry in Ht. simpl in Ht.
    apply andb_true_iff in Ht as [_ Ht].
    destruct (update_attr_collection _ _ _ _ _ _ _ Hstep) as [-> Hok].
    cbn [update_attr]. rewrite update_items_fixed; [reflexivity|].
    rewrite forallb_forall in Ht. rewrite List.Forall_forall in IH, Hok.
    apply List.Forall_forall. intros o' Hin. apply in_map_iff in Hin as (o & <- & Hin).
    specialize (Hok o Hin). apply (IH o Hin (Ht o Hin)).
    destruct (update cast row None_ o) as [o1 e1]. simpl in *. now subst e1.
Qed.

Lemma repeat_visited ref done todo todo' :
  visited cast row ref done todo [] todo' ->
  Forall (fun kv => below repeatable (snd kv)) todo ->
  forallb tidy_entry todo = true ->
  visited cast row ref done todo' [] todo'.
Proof.
  intros Hv. remember [] as rest eqn:Hrest.
  induction Hv as [done rest|done k a pre rest a' pre' Hstep Hvis IH];
    intros Hbelow Ht; subst rest; [constructor|].
  inversion Hbelow as [|? ? Ha Hpre]; subst. cbn [forallb] in Ht.
  apply andb_true_iff in Ht as [Hta Htp].
  constructor; [|now apply IH].
  rewrite app_nil_r in *. simpl in Ha.
  apply (repeat_round ref done k a pre pre' a' Ha Hta Htp); [|exact Hstep].
  apply (visited_rounds _ _ _ _ _ _ _ Hvis).
Qed.

Lemma update_repeatable o : repeatable o.
Proof.
  induction o as [d IH] using MivotInstance_induction.
  intros Ht ref o' Hu.
  destruct (update_ok_visited _ _ _ _ _ Hu) as (d' & -> & Hv).
  apply update_visited_ok. rewrite tidy_eq in Ht.
  now apply (repeat_visited ref [] d d' Hv IH).
Qed.

(** An item that is an attribute leaf comes out of [update] as it was. *)
Lemma update_items_leaves items :
  Forall (fun o => scalars_only o = true) items ->
  update_items (update cast row) items = (items, None).
Proof.
  intros H. apply update_items_fixed. revert H. apply List.Forall_impl.
  intros o Ho. now apply update_leaf_unbound.
Qed.

End UpdateAgain.

(** X11.  An attribute leaf that is an item of a collection is never
    rebound: [update] gives no reference to the items of a collection, so a
    collection of leaves comes out of any update as it was, whatever the
    row. *)
Theorem collection_leaves_not_rebound (cast : pyval -> attr -> result pyval)
    (row : gmap string pyval) (ref : attr) (self : MivotInstance)
    (name : string) (items : list MivotInstance) :
  dict_get name (vars self) = Some (Collection items) ->
  Forall (fun o => scalars_only o = true) items ->
  dict_get name (vars (fst (update cast row ref self))) = Some (Collection items).
Proof.
  destruct self as [d]. simpl. intros Hget Hleaves. rewrite update_eq.
  pose (R := fun (k : string) (a a' : attr) =>
               forall l, a = Collection l ->
                         Forall (fun o => scalars_only o = true) l -> a' = a).
  destruct (update_loop_rel cast row
              (fun kv kv' => fst kv' = fst kv /\ R (fst kv) (snd kv) (snd kv')) ref)
    with (todo := d) (done := @nil (string * attr)) as [d' [E F]].
  - intros kv. split; [reflexivity|]. now intros l _ _.
  - intros self k a _. split; [reflexivity|]. cbn [fst snd].
    intros l E Hl. subst a. cbn [update_attr fst snd].
    now rewrite (update_items_leaves cast row l Hl).
  - destruct (update_loop _ _ _ ref [] d) as [d1 e]. simpl in *. subst d1.
    destruct (dict_get_rounds R _ _ _ _ F Hget) as (a' & Hget' & HR).
    now rewrite Hget', (HR items eq_refl Hleaves).
Qed.

Lemma collection_leaves_not_rebound_witness :
  let leaf := Obj [("dmtype", Scalar (PStr "float")); ("value", Scalar PNone);
                   ("ref", Scalar (PStr "c1"))] in
  dict_get "coll"
    (vars (fst (update sample_cast {[ "c1" := PStr "3.5" ]} None_
                  (Obj [("coll", Collection [leaf; leaf])]))))
  = Some (Collection [leaf; leaf]).
Proof.
  intros leaf.
  apply (collection_leaves_not_rebound sample_cast {[ "c1" := PStr "3.5" ]} None_
           (Obj [("coll", Collection [leaf; leaf])]) "coll" [leaf; leaf]).
  - reflexivity.
  - repeat constructor.
Defined.

(** X12.  In a tree where the attributes named [dmtype] and [ref] are
    scalars, an update that ended without an exception can be repeated: the
    same row and reference leave the updated tree as it is, again without
    an exception. *)
Theorem update_twice (cast : pyval -> attr -> result pyval)
    (row : gmap string pyval) (ref : attr) (self self' : MivotInstance) :
  tidy self = true ->
  update cast row ref self = (self', None) ->
  update cast row ref self' = (self', None).
Proof. intros Ht Hu. exact (update_repeatable cast row self Ht ref self' Hu). Qed.

Lemma update_twice_witness :
  let leaf v := Obj [("dmtype", Scalar (PStr "float")); ("value", Scalar v);
                     ("ref", Scalar (PStr "c1"))] in
  update sample_cast {[ "c1" := PStr "3.5" ]} None_
    (Obj [("x", Instance (leaf (PFloat float_3_5)))])
  = (Obj [("x", Instance (leaf (PFloat float_3_5)))], None).
Proof.
  intros leaf.
  apply (update_twice sample_cast {[ "c1" := PStr "3.5" ]} None_
           (Obj [("x", Instance (leaf PNone))])); reflexivity.
Defined.

Section UpdateValueless.
Variable cast : pyval -> attr -> result pyval.
Variable row : gmap string pyval.

Lemma dict_has_cons_false {A} k k0 (a : A) d :
  dict_has k ((k0, a) :: d) = false -> String.eqb k0 k = false /\ dict_has k d = false.
Proof.
  unfold dict_has. cbn [dict_get]. destruct (String.eqb k0 k); [discriminate|auto].
Qed.

Lemma visited_valueless ref todo : forall done,
  Forall (fun kv => below (fun o => valueless o = true ->
                                    forall ref, update cast row ref o = (o, None))
                      (snd kv)) todo ->
  dict_has "value" todo = false ->
  forallb (fun kv => match snd kv with
                     | Scalar _ => true
                     | Instance o1 => valueless o1
                     | Collection items => forallb valueless items
                     end) todo = true ->
  visited cast row ref done todo [] todo.
Proof.
  induction todo as [|[k a] todo IHt]; intros done IH Hv Hall; [constructor|].
  inversion IH as [|? ? Ha IH']; subst. cbn [forallb snd] in Hall.
  apply andb_true_iff in Hall as [Hka Hall].
  apply dict_has_cons_false in Hv as [Hk Hv].
  constructor; [|now apply IHt].
  destruct a as [v|o1|items]; simpl in Ha.
  - apply update_attr_unbound. now rewrite Hk.
  - rewrite update_attr_instance.
    assert (hasvar "value" o1 = false) as ->.
    { destruct o1 as [d1]. cbn [valueless] in Hka.
      apply andb_true_iff in Hka as [H _]. now apply negb_true_iff in H. }
    now rewrite (Ha Hka None_).
  - cbn [update_attr]. rewrite update_items_fixed; [reflexivity|].
    rewrite forallb_forall in Hka. rewrite List.Forall_forall in Ha.
    apply List.Forall_forall. intros o Hin. exact (Ha o Hin (Hka o Hin) None_).
Qed.

Lemma update_valueless o :
  valueless o = true -> forall ref, update cast row ref o = (o, None).
Proof.
  induction o as [d IH] using MivotInstance_induction.
  cbn [valueless]. intros H ref. apply andb_true_iff in H as [Hv Hall].
  apply negb_true_iff in Hv. apply update_visited_ok.
  now apply visited_valueless.
Qed.

End UpdateValueless.



(** ** The dictionary views *)

Lemma dict_get_drop_dmtype name data :
  name <> "dmtype" -> dict_get name (drop_dmtype data) = dict_get name data.
Proof.
  intros N. unfold drop_dmtype.
  destruct (_ || _); [apply dict_get_pop_ne; congruence|reflexivity].
Qed.

Lemma dict_get_drop_unit name data :
  name <> "unit" -> dict_get name (drop_unit data) = dict_get name data.
Proof.
  intros N. unfold drop_unit. destruct (dict_get "unit" data) as [u|]; [|reflexivity].
  destruct (negb (data_truthy u)); [apply dict_get_pop_ne; congruence|reflexivity].
Qed.

Lemma dict_get_drop_hk name data :
  name <> "astropy_unit" -> name <> "ref" ->
  dict_get name (drop_hk_parameters data) = dict_get name data.
Proof.
  intros N1 N2. unfold drop_hk_parameters, hk_parameters. cbn [fold_left].
  rewrite !dict_get_pop_ne by congruence. reflexivity.
Qed.

Lemma data_get_dict name d :
  data_get name (dict (Obj d))
  = dict_get name (slim_down (public_items (_get_class_dict true) d)).
Proof. reflexivity. Qed.


(** *** From the dictionary to the view of the updated object *)

Lemma init_leaf cast um tf t v0 column c0 :
  cast v0 (Scalar (PStr (_remove_model_name t false))) = Ok c0 ->
  __init__ cast um tf
    (DDict [("dmtype", DScalar (PStr t)); ("value", DScalar v0);
            ("ref", DScalar (PStr column))])
  = Ok (Obj [("dmtype", Scalar (PStr (_remove_model_name t false)));
             ("value", Scalar c0);
             ("ref", Scalar (PStr (_remove_model_name column false)))]).
Proof.
  intros Hc. rewrite init_eq, create_loop_cons.
  change (create_entry cast um tf (__init__ cast um tf) (Obj []) "dmtype" (DScalar (PStr t)))
    with (@Ok MivotInstance (Obj [("dmtype", Scalar (PStr (_remove_model_name t false)))])).
  cbn [mbind result_bind]. rewrite create_loop_cons, create_entry_value.
  change (getattr (Obj [("dmtype", Scalar (PStr (_remove_model_name t false)))]) "dmtype")
    with (@Ok attr (Scalar (PStr (_remove_model_name t false)))).
  cbn [mbind result_bind]. rewrite Hc. reflexivity.
Qed.

Lemma slim_down_single name (V : pydata) :
  ~ In name ["dmtype"; "unit"; "astropy_unit"; "ref"] ->
  slim_down [(name, V)] = [(name, V)].
Proof.
  intros Hname.
  assert (forall k, In k ["dmtype"; "unit"; "astropy_unit"; "ref"] ->
                    String.eqb name k = false) as Hk.
  { intros k Hin. apply String.eqb_neq. intros ->. contradiction. }
  assert (forall k, In k ["dmtype"; "unit"; "astropy_unit"; "ref"] ->
                    dict_pop k [(name, V)] = [(name, V)]) as Hpop.
  { intros k Hin. cbn [dict_pop]. now rewrite (Hk k Hin). }
  unfold slim_down.
  assert (drop_dmtype [(name, V)] = [(name, V)]) as ->.
  { unfold drop_dmtype. destruct (_ || _); [|reflexivity].
    apply Hpop. simpl; tauto. }
  assert (drop_unit [(name, V)] = [(name, V)]) as ->.
  { unfold drop_unit. cbn [dict_get]. rewrite (Hk "unit") by (simpl; tauto).
    reflexivity. }
  unfold drop_hk_parameters, hk_parameters. cbn [fold_left].
  rewrite !Hpop by (simpl; tauto). reflexivity.
Qed.

(** X14.  From the dictionary to the view.  For an attribute given as
    [key: {dmtype, value, ref}], the object is built when the cast of the
    given value succeeds; the leaf is bound to the column named by the
    normalized [ref]; an update with a row that has this column, and whose
    cell can be cast, ends without an exception; and the slim view of the
    updated object is the normalized key with the cast cell as its only
    [value].  The key is an ordinary name, as given and normalized: it is
    not [self], not a name of the class ([update], [dict], [hk_dict], ...)
    and does not start with two underscores. *)
Theorem build_update_view (cast : pyval -> attr -> result pyval)
    (um : gmap string pyval) (tf : gset string) (row : gmap string pyval)
    (key t column : string) (v0 c0 x cx : pyval) :
  let name := _remove_model_name key false in
  let dmtype := Scalar (PStr (_remove_model_name t false)) in
  let bound := _remove_model_name column false in
  PyStr.startswith "_" name = false ->
  ordinary_key key = true ->
  ~ In name ["dmtype"; "unit"; "astropy_unit"; "ref"] ->
  bound <> "null" ->
  cast v0 dmtype = Ok c0 ->
  row !! bound = Some x -> cast x dmtype = Ok cx ->
  exists o o',
    __init__ cast um tf
      (DDict [(key, DDict [("dmtype", DScalar (PStr t)); ("value", DScalar v0);
                           ("ref", DScalar (PStr column))])]) = Ok o /\
    update cast row None_ o = (o', None) /\
    dict o' = DDict [(name, DDict [("value", _get_class_dict true (Scalar cx))])].
Proof.
  intros name dmtype bound Hn _ Hname Hb Hc0 Hrow Hcx.
  set (leaf := Obj [("dmtype", dmtype); ("value", Scalar c0);
                    ("ref", Scalar (PStr bound))]).
  set (leaf' := Obj [("dmtype", dmtype); ("value", Scalar cx);
                     ("ref", Scalar (PStr bound))]).
  exists (Obj [(name, Instance leaf)]), (Obj [(name, Instance leaf')]).
  split; [|split].
  - rewrite init_eq, create_loop_cons, create_entry_instance.
    rewrite (init_leaf cast um tf t v0 column c0 Hc0). reflexivity.
  - rewrite (update_parent_of_leaf cast row name leaf (Scalar (PStr bound)) None_)
      by reflexivity.
    rewrite (update_leaf_bound cast row (Scalar (PStr bound)) leaf x dmtype cx);
      try reflexivity; try assumption.
    + simpl. now apply String.eqb_neq.
    + simpl. now rewrite Hrow.
  - unfold dict. rewrite get_object_dict_eq. cbn [public_items]. rewrite Hn.
    cbn [negb]. rewrite slim_down_single by exact Hname. reflexivity.
Qed.

Lemma build_update_view_witness :
  exists o o',
    __init__ sample_cast sample_units sample_times
      (DDict [("mango:EpochPosition.longitude",
               DDict [("dmtype", DScalar (PStr "float")); ("value", DScalar PNone);
                      ("ref", DScalar (PStr "RAICRS"))])]) = Ok o /\
    update sample_cast {[ "RAICRS" := PStr "3.5" ]} None_ o = (o', None) /\
    dict o' = DDict [("longitude", DDict [("value", DScalar (PFloat float_3_5))])].
Proof.
  apply (build_update_view sample_cast sample_units sample_times
           {[ "RAICRS" := PStr "3.5" ]} "mango:EpochPosition.longitude" "float" "RAICRS"
           PNone PNone (PStr "3.5") (PFloat float_3_5)); try reflexivity.
  - cbv. intuition discriminate.
  - discriminate.
Defined.

(** * Objects at their place in a tree *)
Section Places.
Variable cast : pyval -> attr -> result pyval.
Variable row : gmap string pyval.

Lemma valueless_hasvar o : valueless o = true -> hasvar "value" o = false.
Proof.
  destruct o as [d]. cbn [valueless]. intros H.
  apply andb_true_iff in H as [H _]. now apply negb_true_iff in H.
Qed.

Lemma visited_quiet ref todo : forall done rest,
  forallb quiet_entry todo = true -> visited cast row ref done todo rest todo.
Proof.
  induction todo as [|[k a] todo IH]; intros done rest Hq; [constructor|].
  cbn [forallb] in Hq. apply andb_true_iff in Hq as [Hka Hq].
  unfold quiet_entry in Hka. cbn [fst snd] in Hka.
  apply andb_true_iff in Hka as [Hk Ha]. apply negb_true_iff in Hk.
  constructor; [|now apply IH].
  destruct a as [v|o|items].
  - apply update_attr_unbound. now rewrite Hk.
  - rewrite update_attr_instance, (valueless_hasvar _ Ha).
    now rewrite (update_valueless cast row o Ha None_).
  - cbn [update_attr]. rewrite update_items_fixed; [reflexivity|].
    rewrite forallb_forall in Ha. apply List.Forall_forall.
    intros o Hin. apply update_valueless. now apply Ha.
Qed.

(** One object whose other attributes are quiet: what happens to the
    object is what happens to the attribute. *)
Lemma update_level ref pre key a post a' e :
  forallb quiet_entry pre = true -> forallb quiet_entry post = true ->
  (forall self, update_attr cast row (update cast row) self ref key a = (a', e)) ->
  update cast row ref (Obj (pre ++ (key, a) :: post))
  = (Obj (pre ++ (key, a') :: post), e).
Proof.
  intros Hpre Hpost Hstep. rewrite update_eq.
  rewrite (update_loop_visited cast row ref pre [] ((key, a) :: post) pre)
    by now apply visited_quiet.
  cbn [update_loop app]. rewrite Hstep. destruct e as [e|]; [reflexivity|].
  pose proof (update_loop_visited cast row ref post (pre ++ [(key, a')]) [] post
                (visited_quiet ref post _ _ Hpost)) as E.
  rewrite app_nil_r in E. rewrite E. cbn [update_loop].
  now rewrite <- app_assoc.
Qed.

Lemma update_attr_passed self ref key o :
  update_attr cast row (update cast row) self ref key (Instance o)
  = match passed o with
    | Ok r => let (o', e) := update cast row r o in (Instance o', e)
    | Raise e => (Instance o, Some e)
    end.
Proof.
  rewrite update_attr_instance. unfold passed. now destruct (hasvar "value" o).
Qed.

Lemma update_items_middle before o after o' e :
  forallb valueless before = true -> forallb valueless after = true ->
  update cast row None_ o = (o', e) ->
  update_items (update cast row) (before ++ o :: after)
  = (before ++ o' :: after, e).
Proof.
  intros Hb Ha Ho. induction before as [|b before IH]; cbn [app update_items].
  - fold None_. rewrite Ho. destruct e as [e|]; [reflexivity|].
    rewrite update_items_fixed; [reflexivity|].
    rewrite forallb_forall in Ha. apply List.Forall_forall.
    intros x Hin. apply update_valueless. now apply Ha.
  - cbn [forallb] in Hb. apply andb_true_iff in Hb as [Hb1 Hb2].
    fold None_. rewrite (update_valueless cast row b Hb1 None_), (IH Hb2).
    reflexivity.
Qed.

Lemma update_items_raise before : forall before' item item' after e,
  update_items (update cast row) before = (before', None) ->
  update cast row None_ item = (item', Some e) ->
  update_items (update cast row) (before ++ item :: after)
  = (before' ++ item' :: after, Some e).
Proof.
  induction before as [|b before IH]; intros before' item item' after e;
    cbn [app update_items]; fold None_.
  - intros [= <-] ->. reflexivity.
  - destruct (update cast row None_ b) as [b' [eb|]]; [discriminate|].
    destruct (update_items (update cast row) before) as [rest' er] eqn:E.
    intros [= <- ->] Hitem. now rewrite (IH _ _ _ after _ eq_refl Hitem).
Qed.

Lemma dict_has_quiet d : forallb quiet_entry d = true -> dict_has "value" d = false.
Proof.
  unfold dict_has. induction d as [|[k a] d IH]; [reflexivity|].
  cbn [forallb dict_get]. intros H. apply andb_true_iff in H as [Hka Hd].
  unfold quiet_entry in Hka. cbn [fst] in Hka.
  apply andb_true_iff in Hka as [Hk _]. apply negb_true_iff in Hk.
  rewrite Hk. now apply IH.
Qed.

Lemma dict_has_level pre key (a : attr) post :
  forallb quiet_entry pre = true -> String.eqb key "value" = false ->
  forallb quiet_entry post = true ->
  dict_has "value" (pre ++ (key, a) :: post) = false.
Proof.
  intros Hpre Hk Hpost. unfold dict_has. rewrite dict_get_app.
  pose proof (dict_has_quiet _ Hpre) as H1. pose proof (dict_has_quiet _ Hpost) as H2.
  unfold dict_has in H1, H2.
  destruct (dict_get "value" pre); [discriminate|]. cbn [dict_get]. rewrite Hk.
  now destruct (dict_get "value" post).
Qed.

Lemma quiet_hasvar p o : quiet p = true -> hasvar "value" (fill p o) = false.
Proof.
  destruct p as [pre key post|pre key inner post|pre key before inner after post];
    cbn [quiet fill]; intros H; unfold hasvar; cbn [vars].
  - apply andb_true_iff in H as [H Hpost]. apply andb_true_iff in H as [Hpre Hk].
    apply negb_true_iff in Hk. now apply dict_has_level.
  - apply andb_true_iff in H as [H _]. apply andb_true_iff in H as [H Hpost].
    apply andb_true_iff in H as [Hpre Hk].
    apply negb_true_iff in Hk. now apply dict_has_level.
  - apply andb_true_iff in H as [H _]. apply andb_true_iff in H as [H _].
    apply andb_true_iff in H as [H _]. apply andb_true_iff in H as [H Hpost].
    apply andb_true_iff in H as [Hpre Hk].
    apply negb_true_iff in Hk. now apply dict_has_level.
Qed.

(** What surrounds a quiet place is left as it is by [update]: the tree
    afterwards is the object afterwards at the same place, and the
    exception of the tree is the exception of the object. *)
Lemma update_fill p : forall o r ref,
  quiet p = true -> passed o = Ok r ->
  update cast row ref (fill p o)
  = (fill p (fst (update cast row r o)), snd (update cast row r o)).
Proof.
  induction p as [pre key post|pre key inner IH post|pre key before inner IH after post];
    intros o r ref Hq Hp; cbn [quiet] in Hq; cbn [fill].
  - apply andb_true_iff in Hq as [Hq Hpost]. apply andb_true_iff in Hq as [Hpre _].
    apply update_level; auto. intros self.
    rewrite update_attr_passed, Hp. now destruct (update cast row r o).
  - apply andb_true_iff in Hq as [Hq Hin]. apply andb_true_iff in Hq as [Hq Hpost].
    apply andb_true_iff in Hq as [Hpre _].
    apply update_level; auto. intros self.
    rewrite update_attr_passed. unfold passed. rewrite (quiet_hasvar _ _ Hin).
    now rewrite (IH o r None_ Hin Hp).
  - apply andb_true_iff in Hq as [Hq Hin]. apply andb_true_iff in Hq as [Hq Haf].
    apply andb_true_iff in Hq as [Hq Hbe]. apply andb_true_iff in Hq as [Hq Hpost].
    apply andb_true_iff in Hq as [Hpre _].
    apply update_level; auto. intros self. cbn [update_attr].
    now rewrite (update_items_middle before (fill inner o) after _ _ Hbe Haf
                   (IH o r None_ Hin Hp)).
Qed.

Lemma rebinds_update leaf c :
  rebinds cast row leaf c ->
  passed leaf = getattr leaf "ref" /\
  forall r, getattr leaf "ref" = Ok r ->
            update cast row r leaf = (setattr leaf "value" (Scalar c), None).
Proof.
  intros (Hs & Hnd & Hv & r & x & dm & Hr & H1 & H2 & Hx & Hdm & Hc).
  split; [unfold passed; now rewrite Hv|].
  intros r' Hr'. rewrite Hr in Hr'. injection Hr' as <-.
  rewrite (update_leaf_bound cast row r leaf x dm c); auto.
  unfold setattr. now rewrite map_set_value.
Qed.

(** A bound leaf at a quiet place is rebound, whatever reference is given
    to the tree. *)
Lemma update_fill_rebinds p leaf c ref :
  quiet p = true -> rebinds cast row leaf c ->
  update cast row ref (fill p leaf)
  = (fill p (setattr leaf "value" (Scalar c)), None).
Proof.
  intros Hq Hb. destruct (rebinds_update leaf c Hb) as [Hp Hu].
  pose proof Hb as (_ & _ & _ & r & _ & _ & Hr & _).
  rewrite Hr in Hp. rewrite (update_fill p leaf r ref Hq Hp), (Hu r Hr).
  reflexivity.
Qed.

Lemma update_items_slots (slots : list slot) :
  Forall (fun s : slot => quiet (fst (fst s)) = true /\
                          rebinds cast row (snd (fst s)) (snd s)) slots ->
  update_items (update cast row) (map slot_before slots)
  = (map slot_after slots, None).
Proof.
  induction 1 as [|[[p leaf] c] slots [Hq Hb] _ IH]; [reflexivity|].
  cbn [map update_items slot_before slot_after]. fold None_.
  cbn [fst snd] in Hq, Hb.
  now rewrite (update_fill_rebinds p leaf c None_ Hq Hb), IH.
Qed.

End Places.

(** * The row binder, at any depth *)

(** C2, as stated, fails.  On the tree that holds the leaf, [update] with
    the reference [None] does set the value of the leaf: the holder gives
    the leaf its own [ref].  On the leaf alone, [update] with the row and
    no reference sets nothing. *)
Lemma update_ref_none_counterexample :
  let leaf v := Obj [("dmtype", Scalar (PStr "float")); ("value", Scalar v);
                     ("ref", Scalar (PStr "c1"))] in
  update sample_cast {[ "c1" := PStr "3.5" ]} None_ (Obj [("x", Instance (leaf PNone))])
  = (Obj [("x", Instance (leaf (PFloat float_3_5)))], None) /\
  update sample_cast {[ "c1" := PStr "3.5" ]} None_ (leaf PNone) = (leaf PNone, None).
Proof. split; reflexivity. Qed.

(** C2 (amended).  For an attribute leaf with the dmtype ["float"] and a
    row where ["c1"] is ["3.5"]: [update] with the reference ["c1"] sets
    the [value] of the leaf to the cast of that cell, the float 3.5; and
    when the [ref] of the leaf is ["c1"], so does [update] of a tree that
    holds the leaf as a nested object, directly or below nested objects and
    items of collections, whatever reference the tree is given.  With the
    reference [None] or ['null'], given to the leaf itself or held in its
    [ref], the leaf and the tree are left as they are.  (Around the leaf
    nothing else has a [value]; names are ordinary.) *)
Theorem update_bound_leaf (cast : pyval -> attr -> result pyval)
    (row : gmap string pyval) (p : place) (leaf : MivotInstance) :
  cast (PStr "3.5") (Scalar (PStr "float")) = Ok (PFloat float_3_5) ->
  row !! "c1" = Some (PStr "3.5") ->
  quiet p = true -> ordinary (fill p leaf) = true ->
  scalars_only leaf = true -> List.NoDup (keys (vars leaf)) ->
  hasvar "value" leaf = true ->
  getattr leaf "dmtype" = Ok (Scalar (PStr "float")) ->
  let leaf' := setattr leaf "value" (Scalar (PFloat float_3_5)) in
  update cast row (Scalar (PStr "c1")) leaf = (leaf', None) /\
  (getattr leaf "ref" = Ok (Scalar (PStr "c1")) ->
   forall ref, update cast row ref (fill p leaf) = (fill p leaf', None)) /\
  (forall unbound, unbound = None_ \/ unbound = Scalar (PStr "null") ->
     update cast row unbound leaf = (leaf, None) /\
     (getattr leaf "ref" = Ok unbound ->
      forall ref, update cast row ref (fill p leaf) = (fill p leaf, None))).
Proof.
  intros Hcast Hrow Hq _ Hs Hnd Hv Hdm leaf'.
  assert (update cast row (Scalar (PStr "c1")) leaf = (leaf', None)) as Hleaf.
  { rewrite (update_leaf_bound cast row (Scalar (PStr "c1")) leaf (PStr "3.5")
               (Scalar (PStr "float")) (PFloat float_3_5)); auto.
    - unfold leaf', setattr. rewrite map_set_value; auto.
    - simpl. now rewrite Hrow. }
  split; [exact Hleaf|]. split.
  - intros Href ref.
    rewrite (update_fill cast row p leaf (Scalar (PStr "c1")) ref Hq), Hleaf;
      [reflexivity|]. unfold passed. now rewrite Hv.
  - intros unbound Hu.
    assert (update cast row unbound leaf = (leaf, None)) as Hun.
    { apply update_leaf_unbound; [exact Hs|]. destruct Hu as [->| ->]; reflexivity. }
    split; [exact Hun|]. intros Href ref.
    rewrite (update_fill cast row p leaf unbound ref Hq), Hun; [reflexivity|].
    unfold passed. now rewrite Hv.
Qed.

Lemma update_bound_leaf_witness :
  let leaf v := Obj [("dmtype", Scalar (PStr "float")); ("value", Scalar v);
                     ("unit", Scalar (PStr "deg")); ("ref", Scalar (PStr "c1"))] in
  let tree v :=
    Obj [("dmtype", Scalar (PStr "Catalog"));
         ("sources",
          Collection
            [Obj [("dmtype", Scalar (PStr "Note"))];
             Obj [("position",
                   Instance (Obj [("dmtype", Scalar (PStr "Point"));
                                  ("longitude", Instance (leaf v))]))]])] in
  update sample_cast {[ "c1" := PStr "3.5" ]} None_ (tree PNone)
  = (tree (PFloat float_3_5), None).
Proof.
  intros leaf tree.
  refine (proj1 (proj2 (update_bound_leaf sample_cast {[ "c1" := PStr "3.5" ]}
                          (Item [("dmtype", Scalar (PStr "Catalog"))] "sources"
                             [Obj [("dmtype", Scalar (PStr "Note"))]]
                             (Nested [] "position"
                                (Holder [("dmtype", Scalar (PStr "Point"))] "longitude" [])
                                [])
                             [] [])
                          (leaf PNone) _ _ _ _ _ _ _ _)) _ None_); try reflexivity.
  unfold keys; simpl. repeat constructor; simpl; intuition discriminate.
Defined.

(** C6, as stated, fails: the [value] that [update] rebinds need not be
    that of an attribute leaf.  An object built from a dictionary that is
    not a leaf (it holds a nested dictionary), and that has [value] and
    [ref], has its [value] rebound as well. *)
Lemma update_frame_counterexample :
  let inner v :=
    [("dmtype", Scalar (PStr "float")); ("value", Scalar v);
     ("ref", Scalar (PStr "c1"));
     ("sub", Instance (Obj [("dmtype", Scalar (PStr "x"))]))] in
  let D :=
    [("dmtype", DScalar (PStr "float")); ("value", DScalar PNone);
     ("ref", DScalar (PStr "c1"));
     ("a:N.sub", DDict [("dmtype", DScalar (PStr "x"))])] in
  _is_leaf D = false /\
  scalars_only (Obj (inner PNone)) = false /\
  __init__ sample_cast sample_units sample_times (DDict [("a:P.node", DDict D)])
  = Ok (Obj [("P_node", Instance (Obj (inner PNone)))]) /\
  update sample_cast {[ "c1" := PStr "3.5" ]} None_
    (Obj [("P_node", Instance (Obj (inner PNone)))])
  = (Obj [("P_node", Instance (Obj (inner (PFloat float_3_5))))], None).
Proof. repeat split. Qed.

(** C8.  When the cast helper raises on the cell of a bound leaf,
    [update] of the object holding the leaf returns that very exception:
    nothing catches or wraps it.  The attributes visited before the leaf
    keep what the walk wrote in them ([pre'] for [pre]), the leaf and the
    attributes after it are as they were: there is no rollback.  The same
    exception, with the same object left behind at its place, comes out of
    [update] of any tree that holds the object below nested objects and
    items of collections, when nothing else around that place has a
    [value] (names are ordinary).  In any surroundings, an exception that
    stops the update of a nested object, or of an item of a collection,
    stops the update of the object that holds it, with the same exception:
    the attributes and items visited before keep what was written, the
    child is as its own update left it, and what comes after is as it
    was. *)
Theorem update_cast_error (cast : pyval -> attr -> result pyval)
    (row : gmap string pyval) (ref : attr)
    (pre post pre' : list (string * attr)) (key : string) (leaf : MivotInstance)
    (r : attr) (x : pyval) (dm : attr) (e : exn) :
  let holder := Obj (pre ++ (key, Instance leaf) :: post) in
  let holder' := Obj (pre' ++ (key, Instance leaf) :: post) in
  visited cast row ref [] pre ((key, Instance leaf) :: post) pre' ->
  ordinary holder = true ->
  scalars_only leaf = true -> hasvar "value" leaf = true ->
  getattr leaf "ref" = Ok r -> is_None r = false -> eq_null r = false ->
  row_getitem row r = Ok x -> getattr leaf "dmtype" = Ok dm ->
  cast x dm = Raise e ->
  update cast row r leaf = (leaf, Some e) /\
  update cast row ref holder = (holder', Some e) /\
  (forall p outer,
      quiet p = true -> ordinary (fill p holder) = true -> passed holder = Ok ref ->
      update cast row outer (fill p holder) = (fill p holder', Some e)) /\
  (forall ref0 pre0 pre0' key0 post0 child child' r0 e0,
      visited cast row ref0 [] pre0 ((key0, Instance child) :: post0) pre0' ->
      passed child = Ok r0 -> update cast row r0 child = (child', Some e0) ->
      update cast row ref0 (Obj (pre0 ++ (key0, Instance child) :: post0))
      = (Obj (pre0' ++ (key0, Instance child') :: post0), Some e0)) /\
  (forall ref0 pre0 pre0' key0 post0 before before' item item' after e0,
      visited cast row ref0 [] pre0
        ((key0, Collection (before ++ item :: after)) :: post0) pre0' ->
      update_items (update cast row) before = (before', None) ->
      update cast row None_ item = (item', Some e0) ->
      update cast row ref0
        (Obj (pre0 ++ (key0, Collection (before ++ item :: after)) :: post0))
      = (Obj (pre0' ++ (key0, Collection (before' ++ item' :: after)) :: post0),
         Some e0)).
Proof.
  intros holder holder' Hpre _ Hs Hv Href H1 H2 Hx Hdm Hcast.
  assert (update cast row r leaf = (leaf, Some e)) as Hleaf
      by now apply (update_leaf_raise cast row r leaf x dm e).
  assert (update cast row ref holder = (holder', Some e)) as Hholder.
  { apply update_visited_raise; [exact Hpre|].
    now rewrite update_attr_instance, Hv, Href, Hleaf. }
  split; [exact Hleaf|]. split; [exact Hholder|]. split; [|split].
  - intros p outer Hq _ Hp.
    now rewrite (update_fill cast row p holder ref outer Hq Hp), Hholder.
  - intros ref0 pre0 pre0' key0 post0 child child' r0 e0 Hv0 Hp Hchild.
    apply update_visited_raise; [exact Hv0|].
    now rewrite update_attr_passed, Hp, Hchild.
  - intros ref0 pre0 pre0' key0 post0 before before' item item' after e0 Hv0 Hb Hitem.
    apply update_visited_raise; [exact Hv0|]. cbn [update_attr].
    now rewrite (update_items_raise cast row before before' item item' after e0 Hb Hitem).
Qed.

Lemma update_cast_error_witness :
  let leaf v c := Obj [("dmtype", Scalar (PStr "float")); ("value", Scalar v);
                       ("ref", Scalar (PStr c))] in
  let holder v :=
    Obj [("a", Instance (leaf v "c1")); ("b", Instance (leaf PNone "c2"));
         ("c", Instance (leaf PNone "c1"))] in
  let tree v :=
    Obj [("dmtype", Scalar (PStr "Catalog"));
         ("sources",
          Collection [Obj [("dmtype", Scalar (PStr "Note"))];
                      Obj [("position", Instance (holder v))];
                      Obj [("dmtype", Scalar (PStr "Note"))]])] in
  update sample_cast {[ "c1" := PStr "3.5"; "c2" := PStr "abc" ]}
    (Scalar (PStr "c1")) (tree PNone)
  = (tree (PFloat float_3_5), Some (CastError "could not convert string to float")).
Proof.
  intros leaf holder tree.
  refine (proj1 (proj2 (proj2 (update_cast_error sample_cast
                          {[ "c1" := PStr "3.5"; "c2" := PStr "abc" ]} None_
                          [("a", Instance (leaf PNone "c1"))]
                          [("c", Instance (leaf PNone "c1"))]
                          [("a", Instance (leaf (PFloat float_3_5) "c1"))]
                          "b" (leaf PNone "c2")
                          (Scalar (PStr "c2")) (PStr "abc") (Scalar (PStr "float"))
                          (CastError "could not convert string to float")
                          _ _ _ _ _ _ _ _ _ _)))
            (Item [("dmtype", Scalar (PStr "Catalog"))] "sources"
               [Obj [("dmtype", Scalar (PStr "Note"))]]
               (Holder [] "position" [])
               [Obj [("dmtype", Scalar (PStr "Note"))]] [])
            (Scalar (PStr "c1")) _ _ _); try reflexivity.
  econstructor; [reflexivity|constructor].
Defined.

(** * The builder: collections and values *)





